(** * ApiScheme: personal API tokens (src/Schemes/Api.js)

    A shallow embedding of the [ApiScheme] class: token generation,
    validation of the bearer token of a request, optional login and the
    listing of a user's tokens.  Collaborators of the class (the token
    serializer, the encryption provider, the uuid generator and the request
    of the HTTP context) are explicit components of the embedding; every
    collaborator call is recorded in a trace so that the order of the
    effects of a method can be stated. *)

From Stdlib Require Import ZArith Lia Ascii String.
From stdpp Require Import base option list strings gmap pretty.



(** ** JavaScript strings *)

Module JsString.

(** [s.includes(c)] for a one-character needle. *)
Fixpoint includes_char (c : ascii) (s : string) : bool :=
  match s with
  | EmptyString => false
  | String d s' => if Ascii.eqb c d then true else includes_char c s'
  end.

(** Worker of [String.prototype.split] for a non-empty separator: [skip]
    counts the characters of a matched separator still to be dropped and
    [cur] is the segment read so far. *)
Fixpoint split_go (sep : string) (skip : nat) (cur : string) (s : string)
  : list string :=
  match s with
  | EmptyString => [cur]
  | String c s' =>
      match skip with
      | S k => split_go sep k cur s'
      | O =>
          if String.prefix sep s
          then cur :: split_go sep (String.length sep - 1) "" s'
          else split_go sep 0 (cur +:+ String c "") s'
      end
  end.

(** [s.split(sep)]; the source only splits on non-empty literals. *)
Definition split (sep : string) (s : string) : list string :=
  split_go sep 0 "" s.

(** [parts.join(glue)]. *)
Definition join (glue : string) (parts : list string) : string :=
  String.concat glue parts.

(** [s.replace(/c/g, '')]. *)
Fixpoint remove_char (c : ascii) (s : string) : string :=
  match s with
  | EmptyString => EmptyString
  | String d s' =>
      if Ascii.eqb c d then remove_char c s' else String d (remove_char c s')
  end.

(** [c.toLowerCase()] on ASCII letters. *)
Definition lower_ascii (c : ascii) : ascii :=
  let n := nat_of_ascii c in
  if (65 <=? n)%nat && (n <=? 90)%nat then ascii_of_nat (n + 32) else c.

Fixpoint toLowerCase (s : string) : string :=
  match s with
  | EmptyString => EmptyString
  | String c s' => String (lower_ascii c) (toLowerCase s')
  end.

(** Truthiness of a string: only the empty string is falsy. *)
Definition truthy (s : string) : bool :=
  match s with EmptyString => false | _ => true end.

End JsString.

(** ** JavaScript values and objects *)

(** The values that flow through the scheme: property values of a user,
    columns of a token row, members of a destructured array. *)
Inductive JsVal :=
| JsUndefined
| JsNull
| JsNum (n : Z)
| JsStr (s : string).

#[global] Instance JsVal_eq_dec : EqDecision JsVal.
Proof. solve_decision. Defined.

(** A plain object is a finite map from property names to values. *)
Abbreviation JsObject := (gmap string JsVal).

(** [obj[key]]: a missing property reads as [undefined]. *)
Definition get_prop (obj : JsObject) (key : string) : JsVal :=
  default JsUndefined (obj !! key).

(** Member [i] of an array of strings, as array destructuring reads it. *)
Definition nth_js (parts : list string) (i : nat) : JsVal :=
  match parts !! i with
  | Some s => JsStr s
  | None => JsUndefined
  end.

(** [!v] is [negb (truthy v)]. *)
Definition truthy (v : JsVal) : bool :=
  match v with
  | JsUndefined | JsNull => false
  | JsNum n => negb (n =? 0)%Z
  | JsStr s => JsString.truthy s
  end.

(** Template-literal rendering [`${v}`]. *)
Definition render (v : JsVal) : string :=
  match v with
  | JsUndefined => "undefined"
  | JsNull => "null"
  | JsNum n => pretty n
  | JsStr s => s
  end.

(** [a !== b] on the values above is structural. *)
Definition strict_neq (a b : JsVal) : bool := negb (bool_decide (a = b)).

(** An optional configuration string read with a [null] default. *)
Definition of_option (o : option string) : JsVal :=
  match o with
  | Some s => JsStr s
  | None => JsNull
  end.

Abbreviation User := (gmap string JsVal).

(** ** Collaborators *)

(** Modelled from the spec: the TokenStore collaborator (the serializer
    behind [this._serializerInstance]); [save(user, plainToken, type, extra)]
    persists a record, [findByToken(plainToken, type, filter)] returns the
    owner of a matching record or null, [list(user, type)] enumerates the
    records of a user in insertion order. *)
Module TokenStore.

(** A persisted token: its owner, the plaintext token, the token type and
    the extra columns handed to [save]. *)
Record Row := mkRow {
  owner : User;
  token : string;
  type : string;
  columns : JsObject
}.

(** The columns a filter is matched against: the extra columns plus the
    foreign key, which holds the owner's primary-key value. *)
Definition fields (primaryKey foreignKey : string) (r : Row) : JsObject :=
  <[foreignKey := get_prop (owner r) primaryKey]> (columns r).

(** A filter entry matches when the column exists and both sides render
    to the same text (the decrypted user id is text, the stored key may be
    a number). *)
Definition matches (primaryKey foreignKey : string) (filter : JsObject)
  (r : Row) : bool :=
  forallb
    (fun kv : string * JsVal =>
       match fields primaryKey foreignKey r !! kv.1 with
       | Some x => bool_decide (render x = render kv.2)
       | None => false
       end)
    (map_to_list filter).

Definition save (user : User) (plainToken tokenType : string)
  (extra : JsObject) (rows : list Row) : list Row :=
  rows ++ [mkRow user plainToken tokenType extra].

Definition findByToken (primaryKey foreignKey : string)
  (plainToken tokenType : JsVal) (filter : JsObject) (rows : list Row)
  : option User :=
  owner <$>
    List.find
      (fun r =>
         bool_decide (JsStr (token r) = plainToken)
         && bool_decide (JsStr (type r) = tokenType)
         && matches primaryKey foreignKey filter r)
      rows.

Definition list (primaryKey : string) (user : User) (tokenType : string)
  (rows : list Row) : list Row :=
  List.filter
    (fun r =>
       bool_decide (get_prop (owner r) primaryKey = get_prop user primaryKey)
       && bool_decide (type r = tokenType))
    rows.

End TokenStore.

(** The encryption provider behind [this.Encryption]; [decrypt] has no
    result for a ciphertext it rejects. *)
Record EncryptionProvider := {
  encrypt : string -> string;
  decrypt : string -> option string
}.

(** The request of the HTTP context, as far as the scheme reads it. *)
Record Request := {
  authorization : option string;
  input_token : option string
}.

(** Modelled from the spec: [getAuthHeader] of the base token scheme, which
    reads the token from the Authorization header when its scheme is one of
    the accepted ones and falls back to the [token] input otherwise. *)
Definition getAuthHeader (authTypes : list string) (req : Request) : JsVal :=
  match authorization req with
  | Some header =>
      match JsString.split " " header with
      | [scheme; value] =>
          if bool_decide (JsString.toLowerCase scheme ∈ authTypes)
          then JsStr value
          else JsNull
      | _ => JsNull
      end
  | None => of_option (input_token req)
  end.

(** ** Effects *)

(** What a method can throw. *)
Inductive Exception :=
| RuntimeException (message : string)  (* GE.RuntimeException.invoke(message) *)
| InvalidApiToken                      (* CE.InvalidApiToken.invoke() *)
| ReferenceError (identifier : string) (* an identifier with no binding *)
| TypeError (message : string)         (* property access on null *)
| DecryptionError.                     (* raised by the encryption provider *)

#[global] Instance Exception_eq_dec : EqDecision Exception.
Proof. solve_decision. Defined.

(** Collaborator calls, in the order they are made. *)
Inductive Call :=
| CallGetAuthHeader
| CallUuid
| CallSaveToken (user : User) (plainToken tokenType : string) (columns : JsObject)
| CallEncrypt (plain : string)
| CallDecrypt (cipher : string)
| CallFindByToken (plainToken tokenType : JsVal) (filter : JsObject)
| CallListTokens (user : User) (tokenType : string).

(** The mutable world of one request: the token table, the user attached
    to the scheme ([this.user]), the number of uuids drawn and the trace of
    collaborator calls. *)
Record State := mkState {
  rows : list TokenStore.Row;
  this_user : option User;
  drawn : nat;
  trace : list Call
}.

Inductive Outcome (A : Type) :=
| Return (a : A)
| Throw (e : Exception).
Arguments Return {A} a.
Arguments Throw {A} e.

(** An awaited computation: it ends in a value or an exception and leaves
    a state behind in both cases. *)
Definition Async (A : Type) : Type := State -> Outcome A * State.

#[global] Instance Async_ret : MRet Async :=
  fun A (a : A) st => (Return a, st).

#[global] Instance Async_bind : MBind Async :=
  fun A B (k : A -> Async B) (m : Async A) st =>
    match m st with
    | (Return a, st') => k a st'
    | (Throw e, st') => (Throw e, st')
    end.

Definition throw {A : Type} (e : Exception) : Async A :=
  fun st => (Throw e, st).

(** [try { body } catch (error) { handler }]. *)
Definition try_catch {A : Type} (body : Async A) (handler : Exception -> Async A)
  : Async A :=
  fun st =>
    match body st with
    | (Return a, st') => (Return a, st')
    | (Throw e, st') => handler e st'
    end.

Definition call (c : Call) : Async unit :=
  fun st => (Return tt, mkState (rows st) (this_user st) (drawn st) (trace st ++ [c])).

Definition get_user : Async (option User) :=
  fun st => (Return (this_user st), st).

Definition set_user (u : option User) : Async unit :=
  fun st => (Return tt, mkState (rows st) u (drawn st) (trace st)).

Definition get_rows : Async (list TokenStore.Row) :=
  fun st => (Return (rows st), st).

Definition set_rows (rs : list TokenStore.Row) : Async unit :=
  fun st => (Return tt, mkState rs (this_user st) (drawn st) (trace st)).

(** [for] over an array with an effectful body ([Array.prototype.map]). *)
Fixpoint mapA {A B : Type} (f : A -> Async B) (l : list A) : Async (list B) :=
  match l with
  | [] => mret []
  | x :: l' => y ← f x; ys ← mapA f l'; mret (y :: ys)
  end.

(** ** The scheme *)

Definition DELIMITER : string := ":~~:".

(** An instance of the scheme for one request: its configuration, its
    collaborators and the global object of the process. *)
Record ApiScheme := {
  group : option string;         (* _.get(this.apiOptions, 'group', null) *)
  primaryKey : string;           (* this.primaryKey *)
  foreignKey : string;           (* this._serializerInstance.foreignKey *)
  Encryption : EncryptionProvider;
  uuid_v4 : nat -> string;       (* the n-th value drawn from uuid.v4() *)
  request : Request;
  globalThis : JsObject
}.

(** The value [generate] resolves to: [{ type: 'bearer', token }]. *)
Record BearerToken := {
  bearer_type : string;
  bearer_token : string
}.

Section Methods.

Variable this : ApiScheme.

(** *** Collaborator calls *)

Definition uuid_call : Async string :=
  fun st =>
    (Return (uuid_v4 this (drawn st)),
     mkState (rows st) (this_user st) (S (drawn st)) (trace st ++ [CallUuid])).

Definition saveToken (user : User) (plainToken tokenType : string)
  (columns : JsObject) : Async unit :=
  call (CallSaveToken user plainToken tokenType columns);;
  rs ← get_rows;
  set_rows (TokenStore.save user plainToken tokenType columns rs).

Definition findByToken (plainToken tokenType : JsVal) (filter : JsObject)
  : Async (option User) :=
  call (CallFindByToken plainToken tokenType filter);;
  rs ← get_rows;
  mret (TokenStore.findByToken (primaryKey this) (foreignKey this)
          plainToken tokenType filter rs).

Definition listTokens (user : User) (tokenType : string)
  : Async (list TokenStore.Row) :=
  call (CallListTokens user tokenType);;
  rs ← get_rows;
  mret (TokenStore.list (primaryKey this) user tokenType rs).

Definition encrypt_call (plain : string) : Async string :=
  call (CallEncrypt plain);;
  mret (encrypt (Encryption this) plain).

Definition decrypt_call (cipher : string) : Async string :=
  call (CallDecrypt cipher);;
  match decrypt (Encryption this) cipher with
  | Some plain => mret plain
  | None => throw DecryptionError
  end.

Definition getAuthHeader_call (authTypes : list string) : Async JsVal :=
  call CallGetAuthHeader;;
  mret (getAuthHeader authTypes (request this)).

(** An identifier that is bound neither in the method nor at module level
    (the module binds uuid, GE, _, BaseTokenScheme, CE, DELIMITER and
    ApiScheme) is looked up on the global object; in strict mode a miss
    is a ReferenceError. *)
Definition free_identifier (name : string) : Async JsVal :=
  match globalThis this !! name with
  | Some v => mret v
  | None => throw (ReferenceError name)
  end.

(** *** generate (lines 111-148) *)

(** The wire value of line 145. *)
Definition wire_token (tokenType environment encryptedToken : string) : string :=
  tokenType +:+ "_" +:+ environment +:+ "_" +:+ encryptedToken.

(** The text encrypted on line 144. *)
Definition payload (userId : JsVal) (plainToken : string) : string :=
  render userId +:+ DELIMITER +:+ plainToken.

(** An omitted argument is [None] and takes the default of the signature;
    a null [user] is [None]. *)
Definition generate (user : option User) (tokenType environment : option string)
  (columns : option JsObject) : Async BearerToken :=
  let tokenType := default "api" tokenType in
  let environment := default "live" environment in
  let columns := default ∅ columns in
  if negb (JsString.truthy tokenType) || (String.length tokenType =? 0)%nat
  then throw (RuntimeException "Token type cannot be empty")
  else
  if negb (truthy (of_option (group this)))
     || (String.length (default "" (group this)) =? 0)%nat
  then throw (RuntimeException "Token group cannot be empty")
  else
  if negb (JsString.truthy environment) || (String.length environment =? 0)%nat
  then throw (RuntimeException "Token environment cannot be empty")
  else
  if JsString.includes_char "_" environment
  then throw (RuntimeException "Token environment cannot contain underscores")
  else
  match user with
  | None => throw (TypeError "Cannot read properties of null")
  | Some user =>
      let userId := get_prop user (primaryKey this) in
      if negb (truthy userId)
      then throw (RuntimeException "Primary key value is missing for user")
      else
        id ← uuid_call;
        let plainToken := JsString.remove_char "-" id in
        saveToken user plainToken tokenType columns;;
        encryptedToken ← encrypt_call (payload userId plainToken);
        let token := wire_token tokenType environment encryptedToken in
        mret {| bearer_type := "bearer"; bearer_token := token |}
  end.

(** *** check (lines 173-212) *)

(** Line 187: [const [tokenType, environment, ...tokens] = token.split('_')]. *)
Definition destructure_wire (token : string) : JsVal * JsVal * list string :=
  let parts := JsString.split "_" token in
  (nth_js parts 0, nth_js parts 1, drop 2 parts).

(** Line 197: [const [userId, plainToken] = plain.split(DELIMITER)]. *)
Definition destructure_payload (plain : string) : JsVal * JsVal :=
  let parts := JsString.split DELIMITER plain in
  (nth_js parts 0, nth_js parts 1).

(** The filter object of lines 198-202; a later key overrides an earlier
    one of the same name. *)
Definition token_filter (userId environment : JsVal) : JsObject :=
  <["environment" := environment]>
    (<["group" := of_option (group this)]>
       (<[foreignKey this := userId]> ∅)).

Definition check : Async bool :=
  u ← get_user;
  if is_Some_dec u then mret true
  else
    token ← getAuthHeader_call ["bearer"; "token"];
    if negb (truthy token) then throw InvalidApiToken
    else
      let '(tokenType, environment, tokens) := destructure_wire (render token) in
      g ← free_identifier "group";
      if strict_neq g (of_option (group this)) then throw InvalidApiToken
      else
        plain ← decrypt_call (JsString.join "" tokens);
        let '(userId, plainToken) := destructure_payload plain in
        found ← findByToken plainToken tokenType (token_filter userId environment);
        set_user found;;
        if is_Some_dec found then mret true else throw InvalidApiToken.

(** *** loginIfCan (lines 229-249) *)

Definition loginIfCan : Async bool :=
  u ← get_user;
  if is_Some_dec u then mret true
  else
    token ← getAuthHeader_call ["bearer"; "token"];
    if negb (truthy token) then mret false
    else try_catch check (fun _ => mret false).

(** *** listTokensForUser (lines 261-271) *)

Definition listTokensForUser (user : option User)
  : Async (list TokenStore.Row) :=
  match user with
  | None => mret []
  | Some user =>
      tokens ← listTokens user "api_token";
      mapA
        (fun token =>
           c ← encrypt_call (TokenStore.token token);
           mret (TokenStore.mkRow (TokenStore.owner token) c
                   (TokenStore.type token) (TokenStore.columns token)))
        tokens
  end.

End Methods.

(** ** States and values the methods end in *)

(** The state [check] leaves when it stops right after reading the
    header. *)
Definition after_header (st : State) : State :=
  mkState (rows st) (this_user st) (drawn st) (trace st ++ [CallGetAuthHeader]).

Section Outcomes.

Variable this : ApiScheme.

(** The plaintext token drawn by a call that starts in [st]. *)
Definition fresh_token (st : State) : string :=
  JsString.remove_char "-" (uuid_v4 this (drawn st)).

(** The state a successful [generate] leaves: one row more, one uuid
    drawn, three collaborator calls in this order, the same attached
    user. *)
Definition after_generate (user : User) (tokenType : string)
  (columns : JsObject) (st : State) : State :=
  mkState
    (TokenStore.save user (fresh_token st) tokenType columns (rows st))
    (this_user st)
    (S (drawn st))
    (trace st
     ++ [CallUuid;
         CallSaveToken user (fresh_token st) tokenType columns;
         CallEncrypt (payload (get_prop user (primaryKey this)) (fresh_token st))]).

(** The value a successful [generate] resolves to. *)
Definition issued (user : User) (tokenType environment : string) (st : State)
  : BearerToken :=
  {| bearer_type := "bearer";
     bearer_token :=
       wire_token tokenType environment
         (encrypt (Encryption this)
            (payload (get_prop user (primaryKey this)) (fresh_token st))) |}.

(** The conditions under which every check of lines 112-135 passes. *)
Record Accepted (user : option User) (tokenType environment : string) : Prop := {
  accepted_type : tokenType <> "";
  accepted_group : exists g, group this = Some g /\ g <> "";
  accepted_environment : environment <> "";
  accepted_underscore : JsString.includes_char "_" environment = false;
  accepted_identity :
    exists u, user = Some u /\ truthy (get_prop u (primaryKey this)) = true
}.

(** A listed row: the stored row with its token encrypted. *)
Definition listed (r : TokenStore.Row) : TokenStore.Row :=
  TokenStore.mkRow (TokenStore.owner r)
    (encrypt (Encryption this) (TokenStore.token r))
    (TokenStore.type r) (TokenStore.columns r).

Definition encrypt_calls (rs : list TokenStore.Row) : list Call :=
  List.map (fun r => CallEncrypt (TokenStore.token r)) rs.

End Outcomes.

(** The messages of the four configuration checks (lines 113-125). *)
Definition configuration_messages : list string :=
  ["Token type cannot be empty";
   "Token group cannot be empty";
   "Token environment cannot be empty";
   "Token environment cannot contain underscores"].

(** The message of the identity check (line 134). *)
Definition identity_message : string := "Primary key value is missing for user".

(** A RuntimeException carrying one of the configuration messages. *)
Definition is_configuration_error (e : Exception) : bool :=
  match e with
  | RuntimeException m => bool_decide (m ∈ configuration_messages)
  | _ => false
  end.

(** The token type is empty, the group is unset or empty, or the
    environment is empty or contains an underscore. *)
Definition InvalidConfiguration (this : ApiScheme) (tokenType environment : string)
  : Prop :=
  tokenType = ""
  \/ group this = None
  \/ group this = Some ""
  \/ environment = ""
  \/ JsString.includes_char "_" environment = true.

(** The user is an object whose primary-key property is missing or falsy. *)
Definition LacksPrimaryKey (this : ApiScheme) (user : option User) : Prop :=
  exists u, user = Some u /\ truthy (get_prop u (primaryKey this)) = false.

(** Lines 187 and 197 of [check] in sequence: split the wire value, glue
    the rest, decrypt, split on the delimiter.  The result is the type, the
    environment, the user id and the plaintext token [check] goes on
    with. *)
Definition decode_wire (enc : EncryptionProvider) (token : string)
  : option (JsVal * JsVal * JsVal * JsVal) :=
  let '(tokenType, environment, tokens) := destructure_wire token in
  match decrypt enc (JsString.join "" tokens) with
  | Some plain =>
      let '(userId, plainToken) := destructure_payload plain in
      Some (tokenType, environment, userId, plainToken)
  | None => None
  end.

(** ** A concrete deployment

    Collaborators used to run the methods on concrete inputs. *)

Module Fixture.

(** A provider whose ciphertext is the plaintext behind a fixed tag; a
    text without the tag is rejected. *)
Definition strip (tag s : string) : option string :=
  if String.prefix tag s
  then Some (String.substring (String.length tag)
               (String.length s - String.length tag) s)
  else None.

Definition tagged (tag : string) : EncryptionProvider :=
  {| encrypt := fun s => tag +:+ s; decrypt := strip tag |}.

Definition uuid (n : nat) : string :=
  "c0ffee00-0000-4000-8000-" +:+ pretty n.

Definition no_request : Request :=
  {| authorization := None; input_token := None |}.

Definition bearer (tok : string) : Request :=
  {| authorization := Some ("Bearer " +:+ tok); input_token := None |}.

(** The scheme as configured in a Node process: group [api_token], keys
    [id] and [user_id], and no global named [group]. *)
Definition scheme (enc : EncryptionProvider) (req : Request) : ApiScheme :=
  {| group := Some "api_token"; primaryKey := "id"; foreignKey := "user_id";
     Encryption := enc; uuid_v4 := uuid; request := req; globalThis := ∅ |}.

(** The same scheme in a process where something defined a global
    [group]. *)
Definition scheme_with_global (g : JsVal) (enc : EncryptionProvider)
  (req : Request) : ApiScheme :=
  {| group := Some "api_token"; primaryKey := "id"; foreignKey := "user_id";
     Encryption := enc; uuid_v4 := uuid; request := req;
     globalThis := {[ "group" := g ]} |}.

Definition user42 : User := {[ "id" := JsNum 42 ]}.

Definition fresh : State := mkState [] None 0 [].

Definition scoped : JsObject :=
  <["environment" := JsStr "live"]> {[ "group" := JsStr "api_token" ]}.

End Fixture.

(** ** Requests of the user with id 42 *)

Module Scenario.

Import Fixture.

Definition enc : EncryptionProvider := tagged "enc.".

(** [generate(user)] for the user with id 42, on a fresh request. *)
Definition issue (columns : option JsObject) : Outcome BearerToken * State :=
  generate (scheme enc no_request) (Some user42) None None columns fresh.

(** The wire token that call returns. *)
Definition wire : string := "api_live_enc.42:~~:c0ffee000000400080000".

(** The state of a later request: the token table as [issue] left it and
    no user attached. *)
Definition later (columns : option JsObject) : State :=
  mkState (rows (snd (issue columns))) None 1 [].

End Scenario.

(** ** The remaining members of the class *)

(** The configuration object behind [this._config]; a missing or undefined
    [options] property is [None]. *)
Record Config := {
  options : option JsObject
}.

(** The getter of lines 45-47: [_.get(this._config, 'options', {})]. *)
Definition apiOptions (_config : option Config) : JsObject :=
  default ∅ (_config ≫= options).

(** The getter of lines 56-58: [_.get(this.apiOptions, 'group', null)];
    lodash answers with the default for a missing or undefined property. *)
Definition config_group (_config : option Config) : JsVal :=
  match apiOptions _config !! "group" with
  | Some JsUndefined | None => JsNull
  | Some v => v
  end.

(** The scheme serving another request. *)
Definition with_request (this : ApiScheme) (req : Request) : ApiScheme :=
  {| group := group this; primaryKey := primaryKey this;
     foreignKey := foreignKey this; Encryption := Encryption this;
     uuid_v4 := uuid_v4 this; request := req; globalThis := globalThis this |}.

Section Entrypoints.

Variable this : ApiScheme.

(** [this.validate(uid, password, true)] of the base scheme, which is not
    part of this file: it resolves to what it found for the credentials or
    throws. *)
Variable validate : string -> string -> Async (option User).


(** clientLogin (lines 288-294); [tokenOrUser] is a string or anything
    else, which is handed to [generate] as the user. *)
Definition clientLogin (headerFn sessionFn : string -> string -> Async unit)
  (tokenOrUser : string + option User) : Async unit :=
  token ←
    match tokenOrUser with
    | inl token => mret token
    | inr user =>
        b ← generate this user None None None;
        mret (bearer_token b)
    end;
  headerFn "authorization" ("Bearer " +:+ token).

End Entrypoints.

(** A [headerFn] that succeeds and leaves the state alone. *)
Definition ignore_header (name value : string) : Async unit := mret tt.

(** * Properties *)

(** ** The models on small inputs *)

Example split_three : JsString.split "_" "api_live_abc" = ["api"; "live"; "abc"].
Proof. reflexivity. Qed.

Example split_empty_segments : JsString.split "_" "a__b_" = ["a"; ""; "b"; ""].
Proof. reflexivity. Qed.

Example split_no_separator : JsString.split "_" "" = [""].
Proof. reflexivity. Qed.

Example split_delimiter : JsString.split ":~~:" "42:~~:cafe" = ["42"; "cafe"].
Proof. reflexivity. Qed.

Example split_delimiter_overlap : JsString.split ":~~:" "a:~~:~~:b" = ["a"; "~~:b"].
Proof. reflexivity. Qed.

Example lower_bearer : JsString.toLowerCase "Bearer" = "bearer".
Proof. reflexivity. Qed.


Example render_number : render (JsNum 42) = "42".
Proof. reflexivity. Qed.

Example zero_is_falsy : truthy (JsNum 0) = false.
Proof. reflexivity. Qed.


Example header_bearer :
  getAuthHeader ["bearer"; "token"]
    {| authorization := Some "Bearer abc"; input_token := None |} = JsStr "abc".
Proof. reflexivity. Qed.

Example header_other_scheme :
  getAuthHeader ["bearer"; "token"]
    {| authorization := Some "Basic abc"; input_token := None |} = JsNull.
Proof. reflexivity. Qed.

Example header_fallback :
  getAuthHeader ["bearer"; "token"]
    {| authorization := None; input_token := Some "abc" |} = JsStr "abc".
Proof. reflexivity. Qed.

(** ** Strings: splitting what was glued *)

Section SplitLemmas.

Import JsString.

Lemma append_cons (c : ascii) (a b : string) :
  String c a +:+ b = String c (a +:+ b).
Proof. reflexivity. Qed.

Lemma append_empty_l (b : string) : "" +:+ b = b.
Proof. reflexivity. Qed.

Lemma append_empty_r (s : string) : s +:+ "" = s.
Proof.
  induction s as [|c s IH]; [reflexivity |].
  now rewrite append_cons, IH.
Qed.

Lemma append_assoc (a b c : string) : (a +:+ b) +:+ c = a +:+ (b +:+ c).
Proof.
  induction a as [|x a IH]; [reflexivity |].
  now rewrite !append_cons, IH.
Qed.

Lemma prefix_append (a b : string) : String.prefix a (a +:+ b) = true.
Proof.
  induction a as [|x a IH].
  - now destruct b.
  - rewrite append_cons. simpl.
    destruct (ascii_dec x x) as [_|ne]; [exact IH | now destruct ne].
Qed.

Lemma prefix_other (c d : ascii) (a b : string) :
  c <> d -> String.prefix (String c a) (String d b) = false.
Proof. intros ne. simpl. now destruct (ascii_dec c d). Qed.

Lemma includes_char_cons (c d : ascii) (s : string) :
  includes_char c (String d s) = false -> c <> d /\ includes_char c s = false.
Proof.
  simpl. destruct (Ascii.eqb_spec c d) as [->|ne]; [discriminate | now split].
Qed.

Lemma includes_char_append (c : ascii) (a b : string) :
  includes_char c (a +:+ b) = includes_char c a || includes_char c b.
Proof.
  induction a as [|x a IH]; [reflexivity |].
  rewrite append_cons. simpl. now destruct (Ascii.eqb c x).
Qed.

(** Once a separator is matched, its remaining characters are dropped. *)
Lemma split_go_skip (sep r : string) :
  forall cur s, split_go sep (String.length r) cur (r +:+ s) = split_go sep 0 cur s.
Proof.
  induction r as [|x r IH]; intros cur s; [reflexivity |].
  rewrite append_cons. simpl. apply IH.
Qed.

(** A segment free of the separator's first character, followed by the
    separator, is cut off whole. *)
Lemma split_go_segment (c : ascii) (sep' a : string) :
  includes_char c a = false ->
  forall cur rest,
    split_go (String c sep') 0 cur (a +:+ String c sep' +:+ rest)
    = (cur +:+ a) :: split_go (String c sep') 0 "" rest.
Proof.
  induction a as [|d a IH]; intros Hfree cur rest.
  - rewrite append_empty_l, append_empty_r, append_cons.
    cbn [split_go].
    rewrite <- append_cons, prefix_append. f_equal.
    cbn [String.length]. rewrite Nat.sub_1_r. cbn [Nat.pred].
    apply split_go_skip.
  - apply includes_char_cons in Hfree as [ne Hfree].
    rewrite append_cons. cbn [split_go].
    rewrite (prefix_other c d _ _ ne), (IH Hfree).
    now rewrite append_assoc, append_cons, append_empty_l.
Qed.

(** A text free of the separator's first character is one segment. *)
Lemma split_go_last (c : ascii) (sep' a : string) :
  includes_char c a = false ->
  forall cur, split_go (String c sep') 0 cur a = [cur +:+ a].
Proof.
  induction a as [|d a IH]; intros Hfree cur.
  - now rewrite append_empty_r.
  - apply includes_char_cons in Hfree as [ne Hfree].
    cbn [split_go].
    rewrite (prefix_other c d _ _ ne), (IH Hfree).
    now rewrite append_assoc, append_cons, append_empty_l.
Qed.

Lemma split_three_segments (a b c : string) :
  includes_char "_" a = false ->
  includes_char "_" b = false ->
  includes_char "_" c = false ->
  split "_" (a +:+ "_" +:+ b +:+ "_" +:+ c) = [a; b; c].
Proof.
  intros Ha Hb Hc. unfold split.
  rewrite (split_go_segment "_" "" a Ha).
  rewrite (split_go_segment "_" "" b Hb).
  now rewrite (split_go_last "_" "" c Hc).
Qed.

Lemma split_payload (u p : string) :
  includes_char ":" u = false ->
  includes_char ":" p = false ->
  split ":~~:" (u +:+ ":~~:" +:+ p) = [u; p].
Proof.
  intros Hu Hp. unfold split.
  rewrite (split_go_segment ":" "~~:" u Hu).
  now rewrite (split_go_last ":" "~~:" p Hp).
Qed.

End SplitLemmas.

(** ** Running the monad *)

(** Unfolds the sequencing of awaited calls. *)
Ltac run :=
  unfold mbind, mret, Async_bind, Async_ret, throw, try_catch, call,
    get_user, set_user, get_rows, set_rows in *;
  cbn beta iota in *.

(** Splits on the scrutinee of the innermost [match] or [if] of a
    hypothesis or of the goal. *)
Ltac split_match :=
  match goal with
  | H : context [match ?x with _ => _ end] |- _ =>
      lazymatch x with
      | context [match _ with _ => _ end] => fail
      | _ => let E := fresh "E" in destruct x eqn:E
      end
  | |- context [match ?x with _ => _ end] =>
      lazymatch x with
      | context [match _ with _ => _ end] => fail
      | _ => let E := fresh "E" in destruct x eqn:E
      end
  end.

(** ** check *)

Section CheckLemmas.

Variable this : ApiScheme.

(** With a user attached, [check] answers at once and touches nothing:
    the state, trace included, is returned as it was. *)
Lemma check_attached (st : State) (u : User) :
  this_user st = Some u -> check this st = (Return true, st).
Proof.
  intros Hu. unfold check. run. rewrite Hu. reflexivity.
Qed.

(** Without a token, [check] throws InvalidApiToken (line 184). *)
Lemma check_missing_token (st : State) :
  this_user st = None ->
  truthy (getAuthHeader ["bearer"; "token"] (request this)) = false ->
  check this st = (Throw InvalidApiToken, after_header st).
Proof.
  intros Hu Htok. unfold check, getAuthHeader_call. run.
  rewrite Hu. cbn. rewrite Htok. reflexivity.
Qed.

(** With a token and no global [group], line 188 throws a
    ReferenceError whatever the token is: nothing is decrypted and the
    token table is not queried. *)
Lemma check_unbound_group (st : State) :
  this_user st = None ->
  truthy (getAuthHeader ["bearer"; "token"] (request this)) = true ->
  globalThis this !! "group" = None ->
  check this st = (Throw (ReferenceError "group"), after_header st).
Proof.
  intros Hu Htok Hg. unfold check, getAuthHeader_call, free_identifier. run.
  rewrite Hu. cbn. rewrite Htok. cbn.
  rewrite Hg. reflexivity.
Qed.

(** Hence, in a process without a global [group], [check] succeeds only
    for a request that already carries a user. *)
Lemma check_unbound_group_never_attaches (st : State) :
  this_user st = None ->
  globalThis this !! "group" = None ->
  exists e, check this st = (Throw e, after_header st).
Proof.
  intros Hu Hg.
  destruct (truthy (getAuthHeader ["bearer"; "token"] (request this))) eqn:Htok.
  - eexists. now apply check_unbound_group.
  - eexists. now apply check_missing_token.
Qed.

(** A successful [check] leaves a user attached. *)
Lemma check_success_attaches (st st' : State) :
  check this st = (Return true, st') -> is_Some (this_user st').
Proof.
  unfold check, getAuthHeader_call, free_identifier, decrypt_call, findByToken.
  run. intros H.
  destruct (this_user st) as [u|] eqn:Hu; cbn in H.
  - inversion H; subst. rewrite Hu. eauto.
  - repeat (split_match; cbn in H; try discriminate).
    inversion H; subst. cbn. eauto.
Qed.

End CheckLemmas.

(** ** generate *)

Section GenerateLemmas.

Variable this : ApiScheme.

Lemma empty_test (s : string) :
  negb (JsString.truthy s) || (String.length s =? 0)%nat = false <-> s <> "".
Proof. destruct s; cbn; split; intros; congruence. Qed.

Lemma group_test :
  negb (truthy (of_option (group this)))
  || (String.length (default "" (group this)) =? 0)%nat = false
  <-> exists g, group this = Some g /\ g <> "".
Proof.
  destruct (group this) as [[|c g]|]; cbn; split; intros H;
    try discriminate; try (destruct H as (g' & [= <-] & ne); congruence);
    try (destruct H as (g' & [=] & _)).
  exists (String c g). split; congruence.
Qed.

(** [generate] succeeds exactly on accepted arguments, and then it saves
    the fresh token, encrypts and returns the wire value. *)
Lemma generate_accepted (u : User) (tokenType environment : option string)
  (columns : option JsObject) (st : State) :
  Accepted this (Some u) (default "api" tokenType) (default "live" environment) ->
  generate this (Some u) tokenType environment columns st
  = (Return (issued this u (default "api" tokenType) (default "live" environment) st),
     after_generate this u (default "api" tokenType) (default ∅ columns) st).
Proof.
  intros [Ht Hg He Hu (u' & [= <-] & Hid)].
  unfold generate.
  apply empty_test in Ht, He. apply group_test in Hg.
  rewrite Ht, Hg, He, Hu, Hid. cbn [negb].
  unfold uuid_call, saveToken, encrypt_call. run. cbn.
  unfold issued, after_generate, fresh_token, TokenStore.save.
  now rewrite <- !app_assoc.
Qed.

(** Every other call throws before any collaborator is called. *)
Lemma generate_success_accepted (user : option User)
  (tokenType environment : option string) (columns : option JsObject)
  (st st' : State) (b : BearerToken) :
  generate this user tokenType environment columns st = (Return b, st') ->
  Accepted this user (default "api" tokenType) (default "live" environment).
Proof.
  unfold generate. intros H.
  destruct (negb (JsString.truthy (default "api" tokenType)) || _) eqn:Ht;
    [discriminate |].
  destruct (negb (truthy (of_option (group this))) || _) eqn:Hg;
    [discriminate |].
  destruct (negb (JsString.truthy (default "live" environment)) || _) eqn:He;
    [discriminate |].
  destruct (JsString.includes_char "_" (default "live" environment)) eqn:Hu;
    [discriminate |].
  destruct user as [u|]; [| discriminate].
  destruct (truthy (get_prop u (primaryKey this))) eqn:Hid; [| discriminate].
  constructor; try assumption.
  - now apply empty_test.
  - now apply group_test.
  - now apply empty_test.
  - eauto.
Qed.

Lemma generate_throws_early (user : option User)
  (tokenType environment : option string) (columns : option JsObject)
  (st st' : State) (e : Exception) :
  generate this user tokenType environment columns st = (Throw e, st') ->
  st' = st.
Proof.
  unfold generate. intros H.
  repeat (split_match; try (unfold throw in H; congruence)).
  unfold uuid_call, saveToken, encrypt_call in H. run. cbn in H. discriminate.
Qed.

End GenerateLemmas.

(** ** Rejected arguments of generate *)

(** C5. [generate] fails eagerly, before any collaborator is called and
    with the state untouched, whenever the token type is empty, the
    configured group is unset or empty, or the environment is empty or
    contains an underscore: it then throws a RuntimeException with one of
    the four configuration messages.  When the configuration is valid and
    the user lacks a primary-key value it throws the RuntimeException with
    the identity message, which is none of the configuration messages.
    Neither is the per-request error InvalidApiToken. *)
Theorem generate_rejects (this : ApiScheme) (user : option User)
  (tokenType environment : option string) (columns : option JsObject)
  (st : State) :
  let tt := default "api" tokenType in
  let env := default "live" environment in
  InvalidConfiguration this tt env \/ LacksPrimaryKey this user ->
  exists e,
    generate this user tokenType environment columns st = (Throw e, st)
    /\ e <> InvalidApiToken
    /\ (InvalidConfiguration this tt env -> is_configuration_error e = true)
    /\ (~ InvalidConfiguration this tt env -> e = RuntimeException identity_message)
    /\ is_configuration_error (RuntimeException identity_message) = false.
Proof.
  intros tt env H. unfold generate. fold tt env.
  destruct (negb (JsString.truthy tt) || _) eqn:Ht.
  { eexists. repeat split; try reflexivity; try discriminate.
    intros Hn. destruct Hn. left. destruct tt; [reflexivity | discriminate]. }
  apply empty_test in Ht.
  destruct (negb (truthy (of_option (group this))) || _) eqn:Hg.
  { eexists. repeat split; try reflexivity; try discriminate.
    intros Hn. destruct Hn. right.
    destruct (group this) as [[|c g]|]; [now right; left | discriminate | now left]. }
  apply group_test in Hg. destruct Hg as (g & Hg & Hgne).
  destruct (negb (JsString.truthy env) || _) eqn:He.
  { eexists. repeat split; try reflexivity; try discriminate.
    intros Hn. destruct Hn. do 3 right. left.
    destruct env; [reflexivity | discriminate]. }
  apply empty_test in He.
  destruct (JsString.includes_char "_" env) eqn:Hu.
  { eexists. repeat split; try reflexivity; try discriminate.
    intros Hn. destruct Hn. now do 4 right. }
  assert (Hvalid : ~ InvalidConfiguration this tt env).
  { intros [E|[E|[E|[E|E]]]]; congruence. }
  destruct H as [H | (u & -> & Hid)]; [contradiction |].
  rewrite Hid. cbn [negb].
  eexists. repeat split; try reflexivity; try discriminate.
  intros Hn. contradiction.
Qed.

(** The theorem at work: an empty token type, an unset group, an
    environment with an underscore, and a user without an id. *)
Lemma generate_rejects_witness :
  let sch := Fixture.scheme (Fixture.tagged "enc.") Fixture.no_request in
  (exists e,
     generate sch (Some Fixture.user42) (Some "") None None Fixture.fresh
     = (Throw e, Fixture.fresh)
     /\ is_configuration_error e = true)
  /\ (exists e,
        generate sch (Some Fixture.user42) None (Some "pre_live") None Fixture.fresh
        = (Throw e, Fixture.fresh)
        /\ is_configuration_error e = true)
  /\ generate sch (Some ∅) None None None Fixture.fresh
     = (Throw (RuntimeException identity_message), Fixture.fresh).
Proof.
  intros sch. split; [| split].
  - destruct (generate_rejects sch (Some Fixture.user42) (Some "") None None
                Fixture.fresh) as (e & He & _ & Hc & _).
    + left. now left.
    + exists e. split; [exact He |]. apply Hc. now left.
  - destruct (generate_rejects sch (Some Fixture.user42) None (Some "pre_live") None
                Fixture.fresh) as (e & He & _ & Hc & _).
    + left. do 4 right. reflexivity.
    + exists e. split; [exact He |]. apply Hc. do 4 right. reflexivity.
  - destruct (generate_rejects sch (Some ∅) None None None Fixture.fresh)
      as (e & He & _ & _ & Hi & _).
    + right. exists ∅. split; reflexivity.
    + rewrite He. f_equal. f_equal. apply Hi.
      intros [E|[E|[E|[E|E]]]]; discriminate.
Defined.

(** ** What generate persists *)

Lemma find_last {A : Type} (f : A -> bool) (l : list A) (x : A) :
  f x = true -> is_Some (List.find f (l ++ [x])).
Proof.
  intros Hx. induction l as [|y l IH]; cbn.
  - rewrite Hx. eauto.
  - destruct (f y); eauto.
Qed.

(** A saved token is found again by its plaintext and type. *)
Lemma saved_token_reachable (pk fk : string) (u : User) (plain tokenType : string)
  (columns : JsObject) (rs : list TokenStore.Row) :
  is_Some (TokenStore.findByToken pk fk (JsStr plain) (JsStr tokenType) ∅
             (TokenStore.save u plain tokenType columns rs)).
Proof.
  unfold TokenStore.findByToken, TokenStore.save.
  apply fmap_is_Some, find_last. cbn.
  rewrite !bool_decide_eq_true_2 by reflexivity.
  unfold TokenStore.matches. now rewrite map_to_list_empty.
Qed.

(** C6. When [generate] returns a wire token, the serializer was asked to
    save the fresh plaintext token before the encryption provider was asked
    for the ciphertext the wire token is built from, and the token table of
    the state in which [generate] returns holds a row with that plaintext,
    owner and type, found by [findByToken]. *)
Theorem generate_persists_before_returning (this : ApiScheme)
  (user : option User) (tokenType environment : option string)
  (columns : option JsObject) (st st' : State) (b : BearerToken) :
  generate this user tokenType environment columns st = (Return b, st') ->
  exists (u : User) (plain : string),
    let tt := default "api" tokenType in
    let cols := default ∅ columns in
    let text := payload (get_prop u (primaryKey this)) plain in
    user = Some u
    /\ trace st' = trace st ++ [CallUuid; CallSaveToken u plain tt cols; CallEncrypt text]
    /\ bearer_token b
       = wire_token tt (default "live" environment) (encrypt (Encryption this) text)
    /\ TokenStore.mkRow u plain tt cols ∈ rows st'
    /\ is_Some (TokenStore.findByToken (primaryKey this) (foreignKey this)
                  (JsStr plain) (JsStr tt) ∅ (rows st')).
Proof.
  intros H.
  destruct (generate_success_accepted _ _ _ _ _ _ _ _ H) as [_ _ _ _ (u & -> & _)].
  pose proof (generate_success_accepted _ _ _ _ _ _ _ _ H) as Hacc.
  rewrite (generate_accepted this u _ _ columns st Hacc) in H.
  inversion H; subst; clear H.
  exists u, (fresh_token this st). cbn.
  split; [reflexivity |]. split; [reflexivity |]. split; [reflexivity |].
  split.
  - unfold TokenStore.save. apply elem_of_app. right. apply list_elem_of_singleton.
    reflexivity.
  - apply saved_token_reachable.
Qed.

(** The theorem on the call [generate(user)] for the user with id 42. *)
Lemma generate_persists_before_returning_witness :
  let sch := Fixture.scheme (Fixture.tagged "enc.") Fixture.no_request in
  exists plain : string,
    TokenStore.mkRow Fixture.user42 plain "api" ∅
    ∈ rows (snd (generate sch (Some Fixture.user42) None None None Fixture.fresh)).
Proof.
  intros sch.
  destruct (generate_persists_before_returning sch (Some Fixture.user42)
              None None None Fixture.fresh
              (snd (generate sch (Some Fixture.user42) None None None Fixture.fresh))
              (issued sch Fixture.user42 "api" "live" Fixture.fresh))
    as (u & plain & Hu & _ & _ & Hin & _).
  - vm_compute. reflexivity.
  - exists plain. injection Hu as <-. exact Hin.
Defined.

(** ** The frame of generate *)

(** C10. Whatever its arguments and whether it returns or throws,
    [generate] leaves the attached user as it was.  Either it throws with
    the state untouched and no collaborator called, or it makes exactly the
    calls uuid, saveToken, encrypt, in this order, and the token table grows
    by the one saved row. *)
Theorem generate_frame (this : ApiScheme) (user : option User)
  (tokenType environment : option string) (columns : option JsObject)
  (st : State) :
  let result := generate this user tokenType environment columns st in
  let tt := default "api" tokenType in
  let cols := default ∅ columns in
  this_user (snd result) = this_user st
  /\ ((exists e, result = (Throw e, st))
      \/ (exists (u : User) (plain text : string),
            user = Some u
            /\ trace (snd result)
               = trace st ++ [CallUuid; CallSaveToken u plain tt cols; CallEncrypt text]
            /\ rows (snd result) = TokenStore.save u plain tt cols (rows st))).
Proof.
  cbn zeta.
  destruct (generate this user tokenType environment columns st) as [[b|e] st'] eqn:H.
  - pose proof (generate_success_accepted _ _ _ _ _ _ _ _ H) as Hacc.
    destruct Hacc as [? ? ? ? (u & -> & ?)].
    rewrite (generate_accepted this u _ _ columns st) in H
      by (constructor; eauto).
    inversion H; subst; clear H. cbn.
    split; [reflexivity |]. right.
    exists u, (fresh_token this st). eexists. repeat split; reflexivity.
  - apply generate_throws_early in H as ->. cbn. split; [reflexivity |].
    left. eauto.
Qed.

(** ** check is idempotent *)

(** C8. If a user is already attached to the request, and in particular
    in the state left by an earlier successful [check], [check] returns true
    and hands the state back unchanged: its trace has no new entry, so the
    header was not read, nothing was decrypted and the token table was not
    queried. *)
Theorem check_idempotent (this : ApiScheme) (st : State) :
  is_Some (this_user st) \/ (exists st0, check this st0 = (Return true, st)) ->
  check this st = (Return true, st).
Proof.
  intros [[u Hu] | [st0 H0]].
  - now apply check_attached with u.
  - destruct (check_success_attaches this st0 st H0) as [u Hu].
    now apply check_attached with u.
Qed.

(** A first call that really runs the lookup (in a process that defines a
    global [group], for a token saved with its group and environment), and
    the second call after it. *)
Lemma check_idempotent_witness :
  let sch := Fixture.scheme_with_global (JsStr "api_token") (Fixture.tagged "enc.") in
  let issued_in :=
    generate (sch Fixture.no_request) (Some Fixture.user42) None None
      (Some Fixture.scoped) Fixture.fresh in
  let req := Fixture.bearer "api_live_enc.42:~~:c0ffee000000400080000" in
  let first := check (sch req) (snd issued_in) in
  this_user (snd issued_in) = None
  /\ fst first = Return true
  /\ this_user (snd first) = Some Fixture.user42
  /\ check (sch req) (snd first) = (Return true, snd first).
Proof.
  intros sch issued_in req first.
  split; [reflexivity |]. split; [vm_compute; reflexivity |].
  split; [vm_compute; reflexivity |].
  apply (check_idempotent (sch req) (snd first)).
  right. exists (snd issued_in). vm_compute. reflexivity.
Defined.

(** ** loginIfCan *)

Section LoginLemmas.

Variable this : ApiScheme.

(** [loginIfCan] always returns a boolean: whatever [check] throws is
    caught. *)
Lemma loginIfCan_never_throws (st : State) :
  exists (b : bool) (st' : State), loginIfCan this st = (Return b, st').
Proof.
  unfold loginIfCan, getAuthHeader_call. run.
  destruct (this_user st); cbn; [eauto |].
  destruct (truthy _); cbn; [| eauto].
  destruct (check this _) as [[b|e] st']; eauto.
Qed.

(** Without a token it answers false after reading the header, and
    [check] is not run: the header read is the only call made. *)
Lemma loginIfCan_without_token (st : State) :
  this_user st = None ->
  truthy (getAuthHeader ["bearer"; "token"] (request this)) = false ->
  loginIfCan this st = (Return false, after_header st).
Proof.
  intros Hu Htok. unfold loginIfCan, getAuthHeader_call. run.
  rewrite Hu. cbn. now rewrite Htok.
Qed.

(** With a token it runs [check] and turns every exception into false. *)
Lemma loginIfCan_downgrades (st st' : State) (e : Exception) :
  this_user st = None ->
  truthy (getAuthHeader ["bearer"; "token"] (request this)) = true ->
  check this (after_header st) = (Throw e, st') ->
  loginIfCan this st = (Return false, st').
Proof.
  intros Hu Htok Hc. unfold loginIfCan, getAuthHeader_call. run.
  rewrite Hu. cbn. rewrite Htok. cbn.
  unfold after_header in Hc. now rewrite Hc.
Qed.

(** In a process without a global [group] it therefore answers false for
    every token, valid or not. *)
Lemma loginIfCan_unbound_group (st : State) :
  this_user st = None ->
  globalThis this !! "group" = None ->
  fst (loginIfCan this st) = Return false.
Proof.
  intros Hu Hg.
  destruct (truthy (getAuthHeader ["bearer"; "token"] (request this))) eqn:Htok.
  - destruct (check_unbound_group_never_attaches this (after_header st) Hu Hg)
      as [e He].
    now rewrite (loginIfCan_downgrades st _ e Hu Htok He).
  - now rewrite loginIfCan_without_token.
Qed.

End LoginLemmas.

(** ** listTokensForUser *)

Section ListLemmas.

Variable this : ApiScheme.

Lemma mapA_listed (rs : list TokenStore.Row) :
  forall st,
    mapA
      (fun token =>
         c ← encrypt_call this (TokenStore.token token);
         mret (TokenStore.mkRow (TokenStore.owner token) c
                 (TokenStore.type token) (TokenStore.columns token)))
      rs st
    = (Return (List.map (listed this) rs),
       mkState (rows st) (this_user st) (drawn st) (trace st ++ encrypt_calls rs)).
Proof.
  induction rs as [|r rs IH]; intros st.
  - cbn. unfold mret, Async_ret. rewrite app_nil_r. now destruct st.
  - cbn [mapA]. unfold encrypt_call. run. rewrite IH. cbn.
    now rewrite <- app_assoc.
Qed.

(** A null user is answered with the empty array and no call at all. *)
Lemma listTokensForUser_null (st : State) :
  listTokensForUser this None st = (Return [], st).
Proof. reflexivity. Qed.

(** For a user, the rows the serializer lists under the type
    [api_token], each with its token encrypted. *)
Lemma listTokensForUser_user (u : User) (st : State) :
  let found := TokenStore.list (primaryKey this) u "api_token" (rows st) in
  listTokensForUser this (Some u) st
  = (Return (List.map (listed this) found),
     mkState (rows st) (this_user st) (drawn st)
       (trace st ++ CallListTokens u "api_token" :: encrypt_calls found)).
Proof.
  cbn zeta. unfold listTokensForUser, listTokens. run.
  rewrite mapA_listed. cbn. now rewrite <- app_assoc.
Qed.


End ListLemmas.

(** ** The wire format of line 145 and its decoding in check *)

#[local] Arguments destructure_wire : simpl never.
#[local] Arguments destructure_payload : simpl never.
#[local] Arguments JsString.join : simpl never.

(** [check] past line 188: it looks up exactly what [decode_wire] yields. *)
Lemma check_bound_group (this : ApiScheme) (st : State) (token : string)
  (tokenType environment userId plainToken : JsVal) :
  this_user st = None ->
  getAuthHeader ["bearer"; "token"] (request this) = JsStr token ->
  token <> "" ->
  globalThis this !! "group" = Some (of_option (group this)) ->
  decode_wire (Encryption this) token
  = Some (tokenType, environment, userId, plainToken) ->
  let found :=
    TokenStore.findByToken (primaryKey this) (foreignKey this) plainToken tokenType
      (token_filter this userId environment) (rows st) in
  fst (check this st) = if is_Some_dec found then Return true else Throw InvalidApiToken.
Proof.
  intros Hu Hh Hne Hg Hd found.
  unfold check, getAuthHeader_call, free_identifier, decrypt_call, findByToken. run.
  rewrite Hu. cbn. rewrite Hh.
  destruct token as [|c token]; [contradiction |].
  cbn [truthy JsString.truthy negb render].
  unfold decode_wire in Hd.
  destruct (destructure_wire (String c token)) as [[tt env] tokens].
  rewrite Hg. cbn.
  unfold strict_neq. rewrite bool_decide_eq_true_2 by reflexivity. cbn.
  destruct (decrypt (Encryption this) (JsString.join "" tokens)) as [plain|];
    [| discriminate].
  destruct (destructure_payload plain) as [uid pt].
  injection Hd as <- <- <- <-. cbn.
  subst found. unfold TokenStore.findByToken.
  now destruct (is_Some_dec _).
Qed.

Lemma join_single (s : string) : JsString.join "" [s] = s.
Proof. reflexivity. Qed.

(** Where decoding does invert encoding: the token type, the environment
    and the ciphertext are free of underscores, and the rendered user id and
    the plaintext token are free of colons. *)
Lemma decode_wire_roundtrip (enc : EncryptionProvider) (userId : JsVal)
  (plainToken tokenType environment : string) :
  (forall s, decrypt enc (encrypt enc s) = Some s) ->
  JsString.includes_char "_" tokenType = false ->
  JsString.includes_char "_" environment = false ->
  JsString.includes_char "_" (encrypt enc (payload userId plainToken)) = false ->
  JsString.includes_char ":" (render userId) = false ->
  JsString.includes_char ":" plainToken = false ->
  decode_wire enc
    (wire_token tokenType environment (encrypt enc (payload userId plainToken)))
  = Some (JsStr tokenType, JsStr environment, JsStr (render userId), JsStr plainToken).
Proof.
  intros Hdec Ht He Hc Hu Hp.
  unfold decode_wire, destructure_wire, wire_token.
  rewrite (split_three_segments _ _ _ Ht He Hc). cbn [drop nth_js lookup list_lookup].
  rewrite join_single, Hdec.
  unfold destructure_payload, payload, DELIMITER.
  now rewrite (split_payload _ _ Hu Hp).
Qed.

(** ** The methods on concrete requests *)

(** C1. The user with id 42 is issued the token
    [api_live_enc.42:~~:c0ffee000000400080000]; a later request that
    presents it as [Authorization: Bearer <token>] is not authenticated:
    [check] throws a ReferenceError for the identifier [group] of line 188
    and no user is attached.  The same holds when the row was saved with
    the configured group and the environment as extra columns. *)
Theorem issued_token_fails_check :
  let presented := Fixture.scheme Scenario.enc (Fixture.bearer Scenario.wire) in
  fst (Scenario.issue None)
  = Return {| bearer_type := "bearer"; bearer_token := Scenario.wire |}
  /\ fst (check presented (Scenario.later None)) = Throw (ReferenceError "group")
  /\ this_user (snd (check presented (Scenario.later None))) = None
  /\ fst (Scenario.issue (Some Fixture.scoped))
     = Return {| bearer_type := "bearer"; bearer_token := Scenario.wire |}
  /\ fst (check presented (Scenario.later (Some Fixture.scoped)))
     = Throw (ReferenceError "group")
  /\ this_user (snd (check presented (Scenario.later (Some Fixture.scoped)))) = None.
Proof.
  cbn zeta. repeat split; vm_compute; reflexivity.
Qed.

(** C2. With the configured group [api_token], a request whose token row
    was saved under the group [other] and a request whose token has a single
    segment both end in the ReferenceError of line 188, which is not
    InvalidApiToken; only the request without any token gets
    InvalidApiToken. *)
Theorem check_failures_not_uniform :
  let other : JsObject :=
    <["environment" := JsStr "live"]> {[ "group" := JsStr "other" ]} in
  fst (check (Fixture.scheme Scenario.enc (Fixture.bearer Scenario.wire))
         (Scenario.later (Some other)))
  = Throw (ReferenceError "group")
  /\ fst (check (Fixture.scheme Scenario.enc (Fixture.bearer "garbage"))
            (Scenario.later None))
     = Throw (ReferenceError "group")
  /\ fst (check (Fixture.scheme Scenario.enc Fixture.no_request)
            (Scenario.later None))
     = Throw InvalidApiToken
  /\ ReferenceError "group" <> InvalidApiToken.
Proof.
  cbn zeta. repeat split; try (vm_compute; reflexivity). discriminate.
Qed.

(** C3. Two encodings that do not decode to the pair they were built
    from.  With the token type [api_token] the wire value
    [api_token_live_<c>] is read as type [api], environment [token] and
    payload [live<c>].  With a provider whose ciphertext contains an
    underscore the payload segments are glued without it ([join("")]) and
    the provider is handed another ciphertext. *)
Theorem decode_wire_loses_underscores :
  let enc := Fixture.tagged "enc." in
  let iv := Fixture.tagged "iv_" in
  wire_token "api_token" "live" (encrypt enc (payload (JsNum 42) "cafe"))
  = "api_token_live_enc.42:~~:cafe"
  /\ destructure_wire "api_token_live_enc.42:~~:cafe"
     = (JsStr "api", JsStr "token", ["live"; "enc.42:~~:cafe"])
  /\ decode_wire enc "api_token_live_enc.42:~~:cafe" = None
  /\ decrypt iv (encrypt iv (payload (JsNum 42) "cafe")) = Some "42:~~:cafe"
  /\ wire_token "api" "live" (encrypt iv (payload (JsNum 42) "cafe"))
     = "api_live_iv_42:~~:cafe"
  /\ destructure_wire "api_live_iv_42:~~:cafe"
     = (JsStr "api", JsStr "live", ["iv"; "42:~~:cafe"])
  /\ JsString.join "" ["iv"; "42:~~:cafe"] = "iv42:~~:cafe"
  /\ decode_wire iv "api_live_iv_42:~~:cafe" = None.
Proof.
  cbn zeta. repeat split; vm_compute; reflexivity.
Qed.

(** C4. After one successful [generate(user)] for the user with id 42,
    which saves its row under the default type [api], [listTokensForUser]
    for that user returns the empty array: it lists the type
    [api_token]. *)
Theorem listTokensForUser_misses_default_type :
  fst (Scenario.issue None)
  = Return {| bearer_type := "bearer"; bearer_token := Scenario.wire |}
  /\ List.map TokenStore.type (rows (snd (Scenario.issue None))) = ["api"]
  /\ fst (listTokensForUser (Fixture.scheme Scenario.enc Fixture.no_request)
            (Some Fixture.user42) (Scenario.later None))
     = Return [].
Proof.
  repeat split; vm_compute; reflexivity.
Qed.

(** C7. For the token just issued to the user with id 42, [loginIfCan]
    returns false: [check] throws the ReferenceError of line 188 and the
    catch clause turns it into false. *)
Theorem loginIfCan_false_for_issued_token :
  let result :=
    loginIfCan (Fixture.scheme Scenario.enc (Fixture.bearer Scenario.wire))
      (Scenario.later None) in
  fst result = Return false /\ this_user (snd result) = None.
Proof.
  cbn zeta. split; vm_compute; reflexivity.
Qed.

(** C9. [generate(user, 'api_token', 'live')] succeeds and returns
    [api_token_live_<c>]: the token type of a returned wire token can
    contain an underscore, only the environment is checked for one. *)
Theorem generate_accepts_underscore_in_type :
  fst (generate (Fixture.scheme Scenario.enc Fixture.no_request)
         (Some Fixture.user42) (Some "api_token") (Some "live") None Fixture.fresh)
  = Return {| bearer_type := "bearer";
              bearer_token := "api_token_live_enc.42:~~:c0ffee000000400080000" |}
  /\ JsString.includes_char "_" "api_token" = true.
Proof.
  split; vm_compute; reflexivity.
Qed.

(** What does hold of every returned value: the type is [bearer], the
    token is the token type, the environment and the ciphertext of
    [<userId>:~~:<plainToken>] glued with underscores, and the environment
    is not empty and has no underscore. *)
Lemma generate_wire_format (this : ApiScheme) (user : option User)
  (tokenType environment : option string) (columns : option JsObject)
  (st st' : State) (b : BearerToken) :
  generate this user tokenType environment columns st = (Return b, st') ->
  exists u : User,
    user = Some u
    /\ bearer_type b = "bearer"
    /\ bearer_token b
       = default "api" tokenType +:+ "_" +:+ default "live" environment +:+ "_"
         +:+ encrypt (Encryption this)
               (render (get_prop u (primaryKey this)) +:+ ":~~:" +:+ fresh_token this st)
    /\ default "live" environment <> ""
    /\ JsString.includes_char "_" (default "live" environment) = false.
Proof.
  intros H.
  pose proof (generate_success_accepted _ _ _ _ _ _ _ _ H) as Hacc.
  destruct Hacc as [Ht Hg He Hu (u & -> & Hid)].
  rewrite (generate_accepted this u _ _ columns st) in H by (constructor; eauto).
  inversion H; subst; clear H.
  exists u. repeat split; assumption || reflexivity.
Qed.

(** * Further properties of the class *)

(** ** What check reads out of a wire token *)

Section WireLemmas.

Import JsString.

Lemma concat_empty_cons (x : string) (xs : list string) :
  String.concat "" (x :: xs) = x +:+ String.concat "" xs.
Proof.
  destruct xs as [|y ys]; cbn [String.concat].
  - now rewrite append_empty_r.
  - now rewrite append_empty_l.
Qed.

(** Gluing the segments of a split on one character gives the text
    without that character. *)
Lemma concat_split_go (c : ascii) (s : string) :
  forall cur,
    String.concat "" (split_go (String c "") 0 cur s) = cur +:+ remove_char c s.
Proof.
  induction s as [|d s IH]; intros cur.
  - cbn [split_go remove_char String.concat]. now rewrite append_empty_r.
  - cbn [split_go remove_char].
    destruct (Ascii.eqb_spec c d) as [<-|ne].
    + replace (String.prefix (String c "") (String c s)) with true
        by (symmetry; apply (prefix_append (String c "") s)).
      cbn [String.length Nat.sub].
      now rewrite concat_empty_cons, IH, append_empty_l.
    + rewrite (prefix_other c d _ _ ne), IH.
      now rewrite append_assoc, append_cons, append_empty_l.
Qed.

Lemma join_split (c : ascii) (s : string) :
  join "" (split (String c "") s) = remove_char c s.
Proof.
  unfold join, split. now rewrite concat_split_go, append_empty_l.
Qed.

Lemma remove_char_absent (c : ascii) (s : string) :
  includes_char c s = false -> remove_char c s = s.
Proof.
  induction s as [|d s IH]; [reflexivity |].
  intros H. apply includes_char_cons in H as [ne H].
  cbn [remove_char]. destruct (Ascii.eqb_spec c d); [contradiction |].
  now rewrite IH.
Qed.

Lemma remove_char_clean (c : ascii) (s : string) :
  includes_char c (remove_char c s) = false.
Proof.
  induction s as [|d s IH]; [reflexivity |].
  cbn [remove_char]. destruct (Ascii.eqb_spec c d) as [->|ne]; [exact IH |].
  cbn [includes_char]. destruct (Ascii.eqb_spec c d); [contradiction | exact IH].
Qed.

Lemma split_wire_token (tokenType environment c : string) :
  includes_char "_" tokenType = false ->
  includes_char "_" environment = false ->
  split "_" (wire_token tokenType environment c)
  = tokenType :: environment :: split "_" c.
Proof.
  intros Ht He. unfold split, wire_token.
  rewrite (split_go_segment "_" "" tokenType Ht).
  now rewrite (split_go_segment "_" "" environment He).
Qed.

End WireLemmas.

(** X1. For a token type and an environment without underscore, line 187
    reads both back from the wire value of line 145 whatever the
    ciphertext is, and the text line 197 hands to [decrypt] is the
    ciphertext with every underscore removed; it is the ciphertext itself
    exactly when that has no underscore. *)
Theorem wire_segments_read_back (tokenType environment c : string) :
  JsString.includes_char "_" tokenType = false ->
  JsString.includes_char "_" environment = false ->
  exists tokens : list string,
    destructure_wire (wire_token tokenType environment c)
    = (JsStr tokenType, JsStr environment, tokens)
    /\ JsString.join "" tokens = JsString.remove_char "_" c
    /\ (JsString.includes_char "_" c = false -> JsString.join "" tokens = c).
Proof.
  intros Ht He. exists (JsString.split "_" c).
  unfold destructure_wire. rewrite (split_wire_token _ _ c Ht He).
  split; [reflexivity |]. split.
  - apply join_split.
  - intros Hc. rewrite join_split. now apply remove_char_absent.
Qed.

Lemma wire_segments_read_back_witness :
  exists tokens : list string,
    destructure_wire (wire_token "api" "live" "ab_cd")
    = (JsStr "api", JsStr "live", tokens)
    /\ JsString.join "" tokens = "abcd".
Proof.
  destruct (wire_segments_read_back "api" "live" "ab_cd") as (tokens & H1 & H2 & _);
    [reflexivity | reflexivity |].
  exists tokens. split; [exact H1 | exact H2].
Defined.

(** ** check past the header *)

#[local] Arguments TokenStore.findByToken : simpl never.
#[local] Arguments token_filter : simpl never.
#[local] Arguments strict_neq : simpl never.

(** The whole of [check] for a request that carries a token, in a process
    where the identifier [group] of line 188 has a value. *)
Lemma check_live (this : ApiScheme) (st : State) (token : string) (g : JsVal) :
  this_user st = None ->
  getAuthHeader ["bearer"; "token"] (request this) = JsStr token ->
  token <> "" ->
  globalThis this !! "group" = Some g ->
  check this st =
    if strict_neq g (of_option (group this))
    then (Throw InvalidApiToken, after_header st)
    else
      let cipher := JsString.join "" (destructure_wire token).2 in
      match decrypt (Encryption this) cipher with
      | None =>
          (Throw DecryptionError,
           mkState (rows st) None (drawn st)
             (trace st ++ [CallGetAuthHeader; CallDecrypt cipher]))
      | Some plain =>
          let tokenType := (destructure_wire token).1.1 in
          let environment := (destructure_wire token).1.2 in
          let userId := (destructure_payload plain).1 in
          let plainToken := (destructure_payload plain).2 in
          let filter := token_filter this userId environment in
          let found :=
            TokenStore.findByToken (primaryKey this) (foreignKey this)
              plainToken tokenType filter (rows st) in
          (if is_Some_dec found then Return true else Throw InvalidApiToken,
           mkState (rows st) found (drawn st)
             (trace st
              ++ [CallGetAuthHeader; CallDecrypt cipher;
                  CallFindByToken plainToken tokenType filter]))
      end.
Proof.
  intros Hu Hh Hne Hg.
  unfold check, getAuthHeader_call, free_identifier, decrypt_call, findByToken. run.
  rewrite Hu. cbn. rewrite Hh.
  destruct token as [|c token]; [contradiction |].
  cbn [truthy JsString.truthy negb render].
  destruct (destructure_wire (String c token)) as [[tt env] tokens].
  rewrite Hg. cbn.
  destruct (strict_neq g (of_option (group this))).
  - unfold after_header. now rewrite Hu.
  - cbn. destruct (decrypt (Encryption this) (JsString.join "" tokens)) as [plain|].
    + destruct (destructure_payload plain) as [uid pt]. cbn.
      rewrite <- !app_assoc. cbn.
      now destruct (is_Some_dec _).
    + cbn. rewrite Hu. now rewrite <- !app_assoc.
Qed.

#[local] Arguments getAuthHeader : simpl never.

(** Closes the goals left once a run of a method is known: a trace that
    only grew, fields that did not change. *)
Ltac frame_goal :=
  cbn;
  repeat match goal with
    | |- _ /\ _ => split
    | |- exists new, _ = _ ++ new => rewrite <- ?app_assoc; eexists; reflexivity
    | |- exists new, ?t = ?t ++ new => exists []; now rewrite app_nil_r
    | |- forall _, _ => intros
    | H : Return _ = Throw _ |- _ => discriminate H
    | H : Throw _ = Return _ |- _ => discriminate H
    | |- _ <> _ => discriminate
    | n : ¬ is_Some ?x |- ?x = None => now apply eq_None_not_Some
    | |- _ => reflexivity || assumption || (exists []; now rewrite app_nil_r)
    end.

(** X2. [check] only reads: whatever the request and the outcome, the
    token table and the uuid counter are as before and the trace only grew;
    when it throws, no user is attached afterwards; and it never returns
    false. *)
Theorem check_frame (this : ApiScheme) (st : State) :
  let result := check this st in
  rows (snd result) = rows st
  /\ drawn (snd result) = drawn st
  /\ (exists new, trace (snd result) = trace st ++ new)
  /\ (forall e, fst result = Throw e -> this_user (snd result) = None)
  /\ fst result <> Return false.
Proof.
  cbn zeta. destruct (check this st) as [o st'] eqn:H.
  unfold check, getAuthHeader_call, free_identifier, decrypt_call, findByToken in H.
  run. destruct (this_user st) as [u|] eqn:Hu; cbn in H.
  - inversion H; subst. frame_goal.
  - repeat (split_match; cbn in H); inversion H; subst; frame_goal.
Qed.

(** X3. When [check] authenticates a request that had no user, the user
    it attaches is the owner of a row of the token table whose token and
    type are the ones looked up and which matches the filter; on the way the
    header was read, one ciphertext was decrypted and the table was queried
    once, in this order. *)
Theorem check_attaches_stored_owner (this : ApiScheme) (st st' : State) :
  this_user st = None ->
  check this st = (Return true, st') ->
  exists (r : TokenStore.Row) (cipher : string) (filter : JsObject),
    r ∈ rows st
    /\ this_user st' = Some (TokenStore.owner r)
    /\ is_Some (decrypt (Encryption this) cipher)
    /\ TokenStore.matches (primaryKey this) (foreignKey this) filter r = true
    /\ trace st'
       = trace st
         ++ [CallGetAuthHeader; CallDecrypt cipher;
             CallFindByToken (JsStr (TokenStore.token r))
               (JsStr (TokenStore.type r)) filter].
Proof.
  intros Hu H.
  unfold check, getAuthHeader_call, free_identifier, decrypt_call, findByToken in H.
  run. rewrite Hu in H. cbn in H.
  repeat (split_match; cbn in H; try discriminate).
  inversion H; subst; clear H.
  repeat match goal with E : is_Some_dec _ = _ |- _ => clear E end.
  match goal with
  | Hs : is_Some (TokenStore.findByToken _ _ _ _ _ _) |- _ =>
      unfold TokenStore.findByToken in Hs |- *; destruct Hs as [u Hs]
  end.
  match goal with
  | Hs : _ <$> List.find ?f ?l = Some _ |- _ =>
      destruct (List.find f l) as [r|] eqn:Hf; [| discriminate]
  end.
  apply find_some in Hf as [Hin Hp].
  apply andb_prop in Hp as [Hp Hm]. apply andb_prop in Hp as [Hp Ht].
  apply bool_decide_eq_true_1 in Hp, Ht. subst.
  eexists r, _, _. cbn.
  split; [now apply list_elem_of_In |].
  split; [reflexivity |].
  split; [eauto |].
  split; [exact Hm |].
  now rewrite <- !app_assoc.
Qed.

Lemma check_attaches_stored_owner_witness :
  let this :=
    Fixture.scheme_with_global (JsStr "api_token") Scenario.enc
      (Fixture.bearer Scenario.wire) in
  exists r : TokenStore.Row,
    r ∈ rows (Scenario.later (Some Fixture.scoped))
    /\ this_user (snd (check this (Scenario.later (Some Fixture.scoped))))
       = Some (TokenStore.owner r).
Proof.
  intros this.
  destruct (check_attaches_stored_owner this
              (Scenario.later (Some Fixture.scoped))
              (snd (check this (Scenario.later (Some Fixture.scoped)))))
    as (r & _ & _ & Hin & Hu & _).
  - reflexivity.
  - vm_compute. reflexivity.
  - exists r. split; [exact Hin | exact Hu].
Defined.

(** X4. The comparison of line 188 does not look at the presented token:
    in a process whose global [group] differs from the configured group,
    every request with a token is refused with InvalidApiToken right after
    the header is read, before anything is decrypted or looked up. *)
Theorem check_global_group_differs (this : ApiScheme) (st : State)
  (token : string) (g : JsVal) :
  this_user st = None ->
  getAuthHeader ["bearer"; "token"] (request this) = JsStr token ->
  token <> "" ->
  globalThis this !! "group" = Some g ->
  g <> of_option (group this) ->
  check this st = (Throw InvalidApiToken, after_header st).
Proof.
  intros Hu Hh Hne Hg Hdiff.
  rewrite (check_live this st token g Hu Hh Hne Hg).
  unfold strict_neq. now rewrite bool_decide_eq_false_2.
Qed.

Lemma check_global_group_differs_witness :
  let this :=
    Fixture.scheme_with_global (JsStr "other") Scenario.enc
      (Fixture.bearer Scenario.wire) in
  check this (Scenario.later (Some Fixture.scoped))
  = (Throw InvalidApiToken, after_header (Scenario.later (Some Fixture.scoped))).
Proof.
  intros this.
  apply (check_global_group_differs this _ Scenario.wire (JsStr "other"));
    try reflexivity; discriminate.
Defined.

(** X5. [check] has no handler around the decryption of line 197: in a
    process where line 188 passes, a ciphertext the provider rejects makes
    [check] throw the provider's error, not InvalidApiToken, without
    querying the token table and with no user attached; [loginIfCan] turns
    the same request into false. *)
Theorem check_propagates_decrypt_failure (this : ApiScheme) (st : State)
  (token : string) :
  this_user st = None ->
  getAuthHeader ["bearer"; "token"] (request this) = JsStr token ->
  token <> "" ->
  globalThis this !! "group" = Some (of_option (group this)) ->
  decrypt (Encryption this) (JsString.join "" (destructure_wire token).2) = None ->
  check this st
  = (Throw DecryptionError,
     mkState (rows st) None (drawn st)
       (trace st
        ++ [CallGetAuthHeader;
            CallDecrypt (JsString.join "" (destructure_wire token).2)]))
  /\ fst (loginIfCan this st) = Return false.
Proof.
  intros Hu Hh Hne Hg Hd.
  assert (Hstrict : strict_neq (of_option (group this)) (of_option (group this)) = false).
  { unfold strict_neq. now rewrite bool_decide_eq_true_2. }
  split.
  - rewrite (check_live this st token _ Hu Hh Hne Hg), Hstrict. cbn zeta.
    now rewrite Hd.
  - assert (Htruthy : truthy (getAuthHeader ["bearer"; "token"] (request this)) = true).
    { rewrite Hh. now destruct token. }
    destruct (check this (after_header st)) as [o st1] eqn:Hc.
    rewrite (check_live this (after_header st) token _ Hu Hh Hne Hg), Hstrict in Hc.
    cbn zeta in Hc. rewrite Hd in Hc. injection Hc as <- <-.
    erewrite loginIfCan_downgrades; [reflexivity | exact Hu | exact Htruthy |].
    rewrite (check_live this (after_header st) token _ Hu Hh Hne Hg), Hstrict.
    cbn zeta. now rewrite Hd.
Qed.

Lemma check_propagates_decrypt_failure_witness :
  let this :=
    Fixture.scheme_with_global (JsStr "api_token") Scenario.enc
      (Fixture.bearer "api_live_xnc.42:~~:c0ffee000000400080000") in
  fst (check this (Scenario.later (Some Fixture.scoped))) = Throw DecryptionError
  /\ fst (loginIfCan this (Scenario.later (Some Fixture.scoped))) = Return false.
Proof.
  intros this.
  destruct (check_propagates_decrypt_failure this
              (Scenario.later (Some Fixture.scoped))
              "api_live_xnc.42:~~:c0ffee000000400080000")
    as [Hc Hl]; try reflexivity; try discriminate.
  split; [now rewrite Hc | exact Hl].
Defined.

(** ** Malformed tokens *)

Lemma findByToken_undefined (pk fk : string) (tokenType : JsVal)
  (filter : JsObject) (rs : list TokenStore.Row) :
  TokenStore.findByToken pk fk JsUndefined tokenType filter rs = None.
Proof.
  unfold TokenStore.findByToken.
  induction rs as [|r rs IH]; [reflexivity |].
  cbn [List.find]. now rewrite bool_decide_eq_false_2 by discriminate.
Qed.

Lemma destructure_payload_no_delimiter (plain : string) :
  JsString.includes_char ":" plain = false ->
  destructure_payload plain = (JsStr plain, JsUndefined).
Proof.
  intros H. unfold destructure_payload, JsString.split, DELIMITER.
  now rewrite (split_go_last ":" "~~:" plain H).
Qed.

Lemma destructure_wire_one_segment (token : string) :
  JsString.includes_char "_" token = false ->
  destructure_wire token = (JsStr token, JsUndefined, []).
Proof.
  intros H. unfold destructure_wire, JsString.split.
  now rewrite (split_go_last "_" "" token H).
Qed.

(** X6. In a process where line 188 passes, a ciphertext whose plaintext
    has no delimiter (no colon at all) is looked up with an undefined
    plaintext token and the whole plaintext as the user id; no row answers
    such a lookup, so [check] throws InvalidApiToken and no user is
    attached. *)
Theorem check_payload_without_delimiter (this : ApiScheme) (st : State)
  (token plain : string) :
  this_user st = None ->
  getAuthHeader ["bearer"; "token"] (request this) = JsStr token ->
  token <> "" ->
  globalThis this !! "group" = Some (of_option (group this)) ->
  decrypt (Encryption this) (JsString.join "" (destructure_wire token).2)
  = Some plain ->
  JsString.includes_char ":" plain = false ->
  check this st
  = (Throw InvalidApiToken,
     mkState (rows st) None (drawn st)
       (trace st
        ++ [CallGetAuthHeader;
            CallDecrypt (JsString.join "" (destructure_wire token).2);
            CallFindByToken JsUndefined (destructure_wire token).1.1
              (token_filter this (JsStr plain) (destructure_wire token).1.2)])).
Proof.
  intros Hu Hh Hne Hg Hd Hp.
  rewrite (check_live this st token _ Hu Hh Hne Hg).
  unfold strict_neq. rewrite bool_decide_eq_true_2 by reflexivity.
  cbn [negb]. cbn zeta. rewrite Hd.
  rewrite (destructure_payload_no_delimiter plain Hp). cbn [fst snd].
  rewrite findByToken_undefined. reflexivity.
Qed.

Lemma check_payload_without_delimiter_witness :
  let this :=
    Fixture.scheme_with_global (JsStr "api_token") Scenario.enc
      (Fixture.bearer "api_live_enc.42") in
  fst (check this (Scenario.later (Some Fixture.scoped))) = Throw InvalidApiToken.
Proof.
  intros this.
  rewrite (check_payload_without_delimiter this
             (Scenario.later (Some Fixture.scoped)) "api_live_enc.42" "42");
    reflexivity || discriminate.
Defined.

(** X7. A token without any underscore is read by line 187 as a token
    type alone: the environment is undefined and no payload segment is left,
    so in a process where line 188 passes the provider is asked to decrypt
    the empty text. *)
Theorem check_single_segment_token (this : ApiScheme) (st : State)
  (token : string) :
  this_user st = None ->
  getAuthHeader ["bearer"; "token"] (request this) = JsStr token ->
  token <> "" ->
  globalThis this !! "group" = Some (of_option (group this)) ->
  JsString.includes_char "_" token = false ->
  destructure_wire token = (JsStr token, JsUndefined, [])
  /\ exists rest,
       trace (snd (check this st))
       = trace st ++ CallGetAuthHeader :: CallDecrypt "" :: rest.
Proof.
  intros Hu Hh Hne Hg Hseg.
  split; [now apply destructure_wire_one_segment |].
  rewrite (check_live this st token _ Hu Hh Hne Hg).
  unfold strict_neq. rewrite bool_decide_eq_true_2 by reflexivity.
  cbn [negb]. cbn zeta.
  rewrite (destructure_wire_one_segment token Hseg). cbn [fst snd].
  change (JsString.join "" []) with "".
  destruct (decrypt (Encryption this) "") as [plain|]; cbn; eexists; reflexivity.
Qed.

Lemma check_single_segment_token_witness :
  let this :=
    Fixture.scheme_with_global (JsStr "api_token") Scenario.enc
      (Fixture.bearer "garbage") in
  exists rest,
    trace (snd (check this Fixture.fresh))
    = CallGetAuthHeader :: CallDecrypt "" :: rest.
Proof.
  intros this.
  destruct (check_single_segment_token this Fixture.fresh "garbage")
    as [_ [rest Hrest]]; try reflexivity; try discriminate.
  exists rest. exact Hrest.
Defined.

(** ** loginIfCan and check *)

(** The outcome of [check] depends on the token table and on the attached
    user only, not on the trace or on the uuid counter. *)
Lemma check_outcome_view (this : ApiScheme) (st1 st2 : State) :
  rows st1 = rows st2 ->
  this_user st1 = this_user st2 ->
  fst (check this st1) = fst (check this st2).
Proof.
  destruct st1 as [rs1 u1 d1 t1], st2 as [rs2 u2 d2 t2]. cbn.
  intros <- <-.
  unfold check, getAuthHeader_call, free_identifier, decrypt_call, findByToken. run.
  cbn. destruct u1; [reflexivity |]. cbn.
  repeat (split_match; cbn; try reflexivity).
Qed.

(** X8. [loginIfCan] always returns a boolean, and it returns true
    exactly when a user is attached to the request afterwards; the token
    table and the uuid counter are never changed by it. *)
Theorem loginIfCan_reports_attachment (this : ApiScheme) (st : State) :
  let result := loginIfCan this st in
  exists b : bool,
    fst result = Return b
    /\ (b = true <-> is_Some (this_user (snd result)))
    /\ rows (snd result) = rows st
    /\ drawn (snd result) = drawn st.
Proof.
  cbn zeta. destruct (loginIfCan this st) as [o st'] eqn:H.
  unfold loginIfCan, check, getAuthHeader_call, free_identifier, decrypt_call,
    findByToken in H.
  run. destruct (this_user st) as [u|] eqn:Hu; cbn in H.
  - inversion H; subst. exists true. cbn. rewrite Hu. repeat split; eauto.
  - repeat (split_match; cbn in H); inversion H; subst; cbn;
      try rewrite Hu;
      first
        [ match goal with
          | i : is_Some (this_user st) |- _ =>
              let i' := fresh in
              pose proof i as i'; rewrite Hu in i'; destruct i'; discriminate
          end
        | exists true; repeat split; solve [eauto]
        | exists false; repeat split; try reflexivity; try discriminate;
          intros [? Hs]; try discriminate;
          match goal with
          | n : ¬ is_Some ?x |- _ => destruct n; rewrite Hs; eauto
          end ].
Qed.

(** X9. [loginIfCan] answers what [check] would: true where [check]
    returns true, false where [check] throws, the missing token
    included. *)
Theorem loginIfCan_agrees_with_check (this : ApiScheme) (st : State) :
  fst (loginIfCan this st)
  = match fst (check this st) with
    | Return b => Return b
    | Throw _ => Return false
    end.
Proof.
  destruct (this_user st) as [u|] eqn:Hu.
  - rewrite (check_attached this st u Hu).
    unfold loginIfCan. run. now rewrite Hu.
  - destruct (truthy (getAuthHeader ["bearer"; "token"] (request this))) eqn:Htok.
    + rewrite (check_outcome_view this st (after_header st)) by reflexivity.
      unfold loginIfCan, getAuthHeader_call. run. rewrite Hu. cbn.
      rewrite Htok. cbn.
      fold (after_header st).
      now destruct (check this (after_header st)) as [[b|e] st'].
    + rewrite (loginIfCan_without_token this st Hu Htok).
      now rewrite (check_missing_token this st Hu Htok).
Qed.

(** ** What listTokensForUser shows *)

Lemma List_filter_sublist {A : Type} (f : A -> bool) (l : list A) :
  List.filter f l `sublist_of` l.
Proof.
  induction l as [|x l IH]; cbn.
  - constructor.
  - destruct (f x); now constructor.
Qed.

(** X10. For a user, [listTokensForUser] returns, in the order of the
    token table, exactly the rows of type [api_token] whose owner has the
    user's primary-key value, each with its token replaced by its
    ciphertext; it asks the serializer once and the provider once per listed
    row, and leaves the token table, the attached user and the uuid counter
    alone. *)
Theorem listTokensForUser_lists_own_rows (this : ApiScheme) (u : User)
  (st : State) :
  let result := listTokensForUser this (Some u) st in
  exists found : list TokenStore.Row,
    fst result = Return (List.map (listed this) found)
    /\ found `sublist_of` rows st
    /\ (forall r,
          r ∈ found
          <-> r ∈ rows st
              /\ TokenStore.type r = "api_token"
              /\ get_prop (TokenStore.owner r) (primaryKey this)
                 = get_prop u (primaryKey this))
    /\ trace (snd result)
       = trace st ++ CallListTokens u "api_token" :: encrypt_calls found
    /\ rows (snd result) = rows st
    /\ this_user (snd result) = this_user st
    /\ drawn (snd result) = drawn st.
Proof.
  cbn zeta. rewrite listTokensForUser_user. cbn [fst snd rows this_user drawn trace].
  exists (TokenStore.list (primaryKey this) u "api_token" (rows st)).
  split; [reflexivity |].
  split; [apply List_filter_sublist |].
  split; [| repeat split].
  intros r. unfold TokenStore.list.
  rewrite !list_elem_of_In, filter_In, andb_true_iff, !bool_decide_eq_true.
  tauto.
Qed.





(** ** The order of the checks of generate *)

Lemma valid_configuration_tests (this : ApiScheme) (tt env : string) :
  ~ InvalidConfiguration this tt env ->
  negb (JsString.truthy tt) || (String.length tt =? 0)%nat = false
  /\ negb (truthy (of_option (group this)))
     || (String.length (default "" (group this)) =? 0)%nat = false
  /\ negb (JsString.truthy env) || (String.length env =? 0)%nat = false
  /\ JsString.includes_char "_" env = false.
Proof.
  intros Hvalid. unfold InvalidConfiguration in Hvalid.
  repeat split.
  - apply empty_test. tauto.
  - apply group_test. destruct (group this) as [[|c g]|]; [tauto | | tauto].
    exists (String c g). split; [reflexivity | discriminate].
  - apply empty_test. tauto.
  - destruct (JsString.includes_char "_" env); [tauto | reflexivity].
Qed.

(** X13. [generate] reports the first check that fails, in the order of
    lines 112-135: an empty token type, then an unset or empty group, then
    an empty environment, then an underscore in the environment; with a
    valid configuration a null user is a TypeError of the property access
    of line 132 and a user without primary-key value gets the identity
    message.  In every case the state is untouched. *)
Theorem generate_reports_first_failure (this : ApiScheme) (user : option User)
  (tokenType environment : option string) (columns : option JsObject)
  (st : State) :
  let tt := default "api" tokenType in
  let env := default "live" environment in
  let result := generate this user tokenType environment columns st in
  (tt = "" ->
   result = (Throw (RuntimeException "Token type cannot be empty"), st))
  /\ (tt <> "" -> group this = None \/ group this = Some "" ->
      result = (Throw (RuntimeException "Token group cannot be empty"), st))
  /\ (tt <> "" -> (exists g, group this = Some g /\ g <> "") -> env = "" ->
      result = (Throw (RuntimeException "Token environment cannot be empty"), st))
  /\ (tt <> "" -> (exists g, group this = Some g /\ g <> "") ->
      JsString.includes_char "_" env = true ->
      result
      = (Throw (RuntimeException "Token environment cannot contain underscores"), st))
  /\ (~ InvalidConfiguration this tt env -> user = None ->
      exists m, result = (Throw (TypeError m), st))
  /\ (~ InvalidConfiguration this tt env -> LacksPrimaryKey this user ->
      result = (Throw (RuntimeException identity_message), st)).
Proof.
  cbn zeta. unfold generate.
  set (tt := default "api" tokenType). set (env := default "live" environment).
  repeat split.
  - intros ->. reflexivity.
  - intros Ht Hg. apply empty_test in Ht. rewrite Ht.
    now destruct Hg as [-> | ->].
  - intros Ht Hg He. apply empty_test in Ht. apply group_test in Hg.
    now rewrite Ht, Hg, He.
  - intros Ht Hg Hu. apply empty_test in Ht. apply group_test in Hg.
    rewrite Ht, Hg, Hu.
    destruct env as [|c env']; [discriminate | reflexivity].
  - intros Hvalid ->.
    destruct (valid_configuration_tests this tt env Hvalid) as (-> & -> & -> & ->).
    eexists. reflexivity.
  - intros Hvalid (u & -> & Hid).
    destruct (valid_configuration_tests this tt env Hvalid) as (-> & -> & -> & ->).
    now rewrite Hid.
Qed.

(** ** What generate saves and what check looks for *)


Lemma matches_lookup (pk fk : string) (filter : JsObject) (r : TokenStore.Row)
  (k : string) (v : JsVal) :
  TokenStore.matches pk fk filter r = true ->
  filter !! k = Some v ->
  exists x, TokenStore.fields pk fk r !! k = Some x /\ render x = render v.
Proof.
  unfold TokenStore.matches. intros Hm Hk.
  rewrite forallb_forall in Hm.
  assert (Hin : In (k, v) (map_to_list filter)).
  { apply list_elem_of_In. now apply elem_of_map_to_list. }
  specialize (Hm _ Hin). cbn in Hm.
  destruct (TokenStore.fields pk fk r !! k) as [x|]; [| discriminate].
  apply bool_decide_eq_true_1 in Hm. eauto.
Qed.



(** ** From generate to check *)

Lemma wire_token_not_empty (tokenType environment c : string) :
  wire_token tokenType environment c <> "".
Proof. unfold wire_token. now destruct tokenType. Qed.

Lemma token_filter_foreign_key (this : ApiScheme) (userId environment : JsVal) :
  foreignKey this <> "group" ->
  foreignKey this <> "environment" ->
  token_filter this userId environment !! foreignKey this = Some userId.
Proof.
  intros Hg He. unfold token_filter.
  rewrite !lookup_insert_ne by congruence. apply lookup_insert_eq.
Qed.

(** A row saved with the configured group and the environment as extra
    columns matches the filter [check] builds for its owner. *)
Lemma matches_scoped_row (this : ApiScheme) (u : User) (plain tt env : string)
  (cols : JsObject) :
  (exists vg, cols !! "group" = Some vg /\ render vg = render (of_option (group this))) ->
  (exists ve, cols !! "environment" = Some ve /\ render ve = env) ->
  foreignKey this <> "group" ->
  foreignKey this <> "environment" ->
  TokenStore.matches (primaryKey this) (foreignKey this)
    (token_filter this (JsStr (render (get_prop u (primaryKey this)))) (JsStr env))
    (TokenStore.mkRow u plain tt cols) = true.
Proof.
  intros (vg & Hvg & Hrg) (ve & Hve & Hre) Hfg Hfe.
  unfold TokenStore.matches. apply forallb_forall. intros [k v] Hin.
  apply list_elem_of_In, elem_of_map_to_list in Hin.
  unfold token_filter in Hin. unfold TokenStore.fields. cbn.
  destruct (decide (k = "environment")) as [-> | Hke].
  { rewrite lookup_insert_eq in Hin. injection Hin as <-.
    rewrite lookup_insert_ne by exact Hfe. rewrite Hve.
    now apply bool_decide_eq_true_2. }
  rewrite lookup_insert_ne in Hin by congruence.
  destruct (decide (k = "group")) as [-> | Hkg].
  { rewrite lookup_insert_eq in Hin. injection Hin as <-.
    rewrite lookup_insert_ne by exact Hfg. rewrite Hvg.
    now apply bool_decide_eq_true_2. }
  rewrite lookup_insert_ne in Hin by congruence.
  destruct (decide (k = foreignKey this)) as [-> | Hkf].
  { rewrite lookup_insert_eq in Hin. injection Hin as <-.
    rewrite lookup_insert_eq. now apply bool_decide_eq_true_2. }
  rewrite lookup_insert_ne in Hin by congruence.
  now rewrite lookup_empty in Hin.
Qed.

(** X15. In a process where the identifier [group] of line 188 holds the
    configured group, a token issued by [generate] with the group and the
    environment among the extra columns authenticates a later request that
    presents it: [check] returns true and attaches a user with the primary
    key the token was issued for.  This needs a provider that decrypts what
    it encrypted, a token type and a ciphertext without underscore, and a
    user id and plaintext token without colon. *)
Theorem issued_token_authenticates (this : ApiScheme) (u : User)
  (tokenType environment : option string) (cols : JsObject) (st : State)
  (req : Request) (later : State) :
  let tt := default "api" tokenType in
  let env := default "live" environment in
  let userId := get_prop u (primaryKey this) in
  let plain := fresh_token this st in
  let wire := wire_token tt env (encrypt (Encryption this) (payload userId plain)) in
  Accepted this (Some u) tt env ->
  globalThis this !! "group" = Some (of_option (group this)) ->
  (forall s, decrypt (Encryption this) (encrypt (Encryption this) s) = Some s) ->
  JsString.includes_char "_" tt = false ->
  JsString.includes_char "_" (encrypt (Encryption this) (payload userId plain)) = false ->
  JsString.includes_char ":" (render userId) = false ->
  JsString.includes_char ":" plain = false ->
  (exists vg, cols !! "group" = Some vg /\ render vg = render (of_option (group this))) ->
  (exists ve, cols !! "environment" = Some ve /\ render ve = env) ->
  foreignKey this <> "group" ->
  foreignKey this <> "environment" ->
  getAuthHeader ["bearer"; "token"] req = JsStr wire ->
  rows later
  = rows (snd (generate this (Some u) tokenType environment (Some cols) st)) ->
  this_user later = None ->
  fst (generate this (Some u) tokenType environment (Some cols) st)
  = Return {| bearer_type := "bearer"; bearer_token := wire |}
  /\ fst (check (with_request this req) later) = Return true
  /\ exists u',
       this_user (snd (check (with_request this req) later)) = Some u'
       /\ render (get_prop u' (primaryKey this)) = render userId.
Proof.
  intros tt env userId plain wire Hacc Hg Hdec Htt Hc Hu Hp Hcg Hce Hfg Hfe Hh Hrows Hnone.
  rewrite (generate_accepted this u tokenType environment (Some cols) st Hacc) in *.
  cbn [fst snd rows after_generate] in Hrows.
  split; [reflexivity |].
  rewrite (check_live (with_request this req) later wire (of_option (group this))
             Hnone Hh (wire_token_not_empty _ _ _) Hg).
  cbn [group primaryKey foreignKey Encryption with_request].
  unfold strict_neq. rewrite bool_decide_eq_true_2 by reflexivity.
  cbn [negb]. cbn zeta.
  unfold wire, destructure_wire, wire_token.
  rewrite (split_three_segments _ _ _ Htt (accepted_underscore _ _ _ _ Hacc) Hc).
  cbn [drop nth_js lookup list_lookup fst snd].
  rewrite join_single, Hdec.
  unfold destructure_payload, payload, DELIMITER.
  rewrite (split_payload _ _ Hu Hp). cbn [nth_js lookup list_lookup fst snd].
  fold tt env userId plain.
  set (filter := token_filter (with_request this req) (JsStr (render userId)) (JsStr env)).
  assert (Hfilter : filter = token_filter this (JsStr (render userId)) (JsStr env))
    by reflexivity.
  destruct (TokenStore.findByToken (primaryKey this) (foreignKey this)
              (JsStr plain) (JsStr tt) filter (rows later)) as [u'|] eqn:Hfound.
  - cbn. split; [reflexivity |]. exists u'. split; [reflexivity |].
    unfold TokenStore.findByToken in Hfound.
    destruct (List.find _ (rows later)) as [r|] eqn:Hf; [| discriminate].
    injection Hfound as <-.
    apply find_some in Hf as [_ Hpred].
    apply andb_prop in Hpred as [_ Hm].
    rewrite Hfilter in Hm.
    destruct (matches_lookup _ _ _ _ _ _ Hm
                (token_filter_foreign_key this _ _ Hfg Hfe)) as (x & Hx & Hr).
    unfold TokenStore.fields in Hx. rewrite lookup_insert_eq in Hx.
    injection Hx as <-. exact Hr.
  - exfalso.
    assert (Hsome : is_Some (TokenStore.findByToken (primaryKey this) (foreignKey this)
                               (JsStr plain) (JsStr tt) filter (rows later))).
    { rewrite Hrows. unfold TokenStore.findByToken, TokenStore.save.
      apply fmap_is_Some, find_last. cbn.
      rewrite !bool_decide_eq_true_2 by reflexivity. cbn.
      rewrite Hfilter. now apply matches_scoped_row. }
    rewrite Hfound in Hsome. now destruct Hsome.
Qed.

Lemma substring_whole (s : string) : String.substring 0 (String.length s) s = s.
Proof. induction s as [|c s IH]; cbn; [reflexivity | now rewrite IH]. Qed.

Lemma strip_tagged (tag s : string) : Fixture.strip tag (tag +:+ s) = Some s.
Proof.
  unfold Fixture.strip. rewrite prefix_append. f_equal.
  induction tag as [|c tag IH].
  - rewrite append_empty_l. cbn [String.length]. rewrite Nat.sub_0_r.
    apply substring_whole.
  - rewrite append_cons. cbn [String.length String.substring Nat.sub]. exact IH.
Qed.

Lemma issued_token_authenticates_witness :
  let this := Fixture.scheme_with_global (JsStr "api_token") Scenario.enc
                Fixture.no_request in
  let req := Fixture.bearer Scenario.wire in
  let later := Scenario.later (Some Fixture.scoped) in
  fst (check (with_request this req) later) = Return true
  /\ exists u',
       this_user (snd (check (with_request this req) later)) = Some u'
       /\ render (get_prop u' "id") = "42".
Proof.
  intros this req later.
  destruct (issued_token_authenticates this Fixture.user42 None None Fixture.scoped
              Fixture.fresh req later) as (_ & Hc & Hu).
  - constructor; try discriminate; try reflexivity.
    + exists "api_token". split; [reflexivity | discriminate].
    + exists Fixture.user42. split; reflexivity.
  - reflexivity.
  - intros s. apply strip_tagged.
  - reflexivity.
  - reflexivity.
  - reflexivity.
  - reflexivity.
  - exists (JsStr "api_token"). split; reflexivity.
  - exists (JsStr "live"). split; reflexivity.
  - discriminate.
  - discriminate.
  - reflexivity.
  - reflexivity.
  - reflexivity.
  - split; [exact Hc | exact Hu].
Defined.

(** ** attempt and clientLogin *)





(** X17. [clientLogin] given a string calls [headerFn] with
    [authorization] and [Bearer <string>] and nothing else; given anything
    else it first runs [generate] with the defaults: when that throws, the
    exception propagates with the state untouched whatever [headerFn] is,
    and when it returns, [headerFn] receives [Bearer api_live_<c>] in the
    state [generate] left.  [sessionFn] plays no part. *)
Theorem clientLogin_sets_bearer_header (this : ApiScheme)
  (headerFn sessionFn : string -> string -> Async unit) (st : State) :
  (forall token,
     clientLogin this headerFn sessionFn (inl token) st
     = headerFn "authorization" ("Bearer " +:+ token) st)
  /\ (forall user e st',
        generate this user None None None st = (Throw e, st') ->
        forall headerFn' sessionFn',
          clientLogin this headerFn' sessionFn' (inr user) st = (Throw e, st))
  /\ (forall u,
        Accepted this (Some u) "api" "live" ->
        clientLogin this headerFn sessionFn (inr (Some u)) st
        = headerFn "authorization"
            ("Bearer "
             +:+ wire_token "api" "live"
                   (encrypt (Encryption this)
                      (payload (get_prop u (primaryKey this)) (fresh_token this st))))
            (after_generate this u "api" ∅ st)).
Proof.
  split; [| split].
  - intros token. unfold clientLogin. run. reflexivity.
  - intros user e st' H headerFn' sessionFn'.
    pose proof (generate_throws_early _ _ _ _ _ _ _ _ H) as ->.
    unfold clientLogin. run. now rewrite H.
  - intros u Hacc. unfold clientLogin. run.
    now rewrite (generate_accepted this u None None None st Hacc).
Qed.

(** ** The configured group *)

(** X18. The getters of lines 45-58 fall back on an empty options object
    and on a null group: for a scheme whose group is the one read from a
    configuration that is missing, has no options or has no [group] option,
    the group is null and [generate] always throws, with the message of the
    token type or of the group, whatever its arguments. *)
Theorem generate_needs_configured_group (this : ApiScheme)
  (_config : option Config) (user : option User)
  (tokenType environment : option string) (columns : option JsObject)
  (st : State) :
  of_option (group this) = config_group _config ->
  apiOptions _config !! "group" = None ->
  group this = None
  /\ exists m,
       generate this user tokenType environment columns st
       = (Throw (RuntimeException m), st)
       /\ (m = "Token type cannot be empty" \/ m = "Token group cannot be empty").
Proof.
  intros Hglue Hmissing. unfold config_group in Hglue. rewrite Hmissing in Hglue.
  assert (Hgroup : group this = None) by (destruct (group this); [discriminate | reflexivity]).
  split; [exact Hgroup |].
  unfold generate. rewrite Hgroup.
  destruct (negb (JsString.truthy (default "api" tokenType)) || _).
  - eexists. split; [reflexivity | now left].
  - eexists. split; [reflexivity | now right].
Qed.

Lemma generate_needs_configured_group_witness :
  let this :=
    {| group := None; primaryKey := "id"; foreignKey := "user_id";
       Encryption := Scenario.enc; uuid_v4 := Fixture.uuid;
       request := Fixture.no_request; globalThis := ∅ |} in
  generate this (Some Fixture.user42) None None None Fixture.fresh
  = (Throw (RuntimeException "Token group cannot be empty"), Fixture.fresh).
Proof.
  intros this.
  destruct (generate_needs_configured_group this (Some {| options := None |})
              (Some Fixture.user42) None None None Fixture.fresh)
    as (_ & m & Hm & _); [reflexivity | reflexivity |].
  rewrite Hm. vm_compute in Hm. now injection Hm as <-.
Defined.

(** ** Tokens issued in a row, tokens listed *)

Lemma append_length (a b : string) :
  String.length (a +:+ b) = String.length a + String.length b.
Proof.
  induction a as [|c a IH]; [reflexivity |].
  rewrite append_cons. cbn [String.length]. now rewrite IH.
Qed.

Lemma encrypt_injective (enc : EncryptionProvider) (a b : string) :
  (forall s, decrypt enc (encrypt enc s) = Some s) ->
  encrypt enc a = encrypt enc b -> a = b.
Proof.
  intros Hdec Heq. apply (f_equal (decrypt enc)) in Heq.
  rewrite !Hdec in Heq. now injection Heq.
Qed.

Lemma wire_token_injective (tt env c1 c2 : string) :
  wire_token tt env c1 = wire_token tt env c2 -> c1 = c2.
Proof.
  unfold wire_token. intros H.
  now repeat apply String.app_inj in H.
Qed.

(** X19. Two successful calls of [generate] in a row draw two uuids, the
    one after the other, and save one row each; with a provider that
    decrypts what it encrypted, the two wire tokens differ as soon as the
    two uuids differ once their dashes are removed, even for the same user,
    token type and environment. *)
Theorem successive_tokens_differ (this : ApiScheme) (u : User)
  (tokenType environment : option string) (columns : option JsObject)
  (st : State) :
  let tt := default "api" tokenType in
  let env := default "live" environment in
  let cols := default ∅ columns in
  let first := generate this (Some u) tokenType environment columns st in
  let second := generate this (Some u) tokenType environment columns (snd first) in
  let plain1 := JsString.remove_char "-" (uuid_v4 this (drawn st)) in
  let plain2 := JsString.remove_char "-" (uuid_v4 this (S (drawn st))) in
  Accepted this (Some u) tt env ->
  (forall s, decrypt (Encryption this) (encrypt (Encryption this) s) = Some s) ->
  plain1 <> plain2 ->
  exists b1 b2,
    fst first = Return b1
    /\ fst second = Return b2
    /\ bearer_token b1 <> bearer_token b2
    /\ rows (snd second)
       = rows st
         ++ [TokenStore.mkRow u plain1 tt cols; TokenStore.mkRow u plain2 tt cols].
Proof.
  cbn zeta. intros Hacc Hdec Hdiff.
  rewrite (generate_accepted this u tokenType environment columns st Hacc).
  cbn [snd].
  rewrite (generate_accepted this u tokenType environment columns _ Hacc).
  eexists _, _. split; [reflexivity |]. split; [reflexivity |]. split.
  - cbn [issued bearer_token]. intros Heq.
    apply wire_token_injective, (encrypt_injective _ _ _ Hdec) in Heq.
    unfold payload in Heq. repeat apply String.app_inj in Heq.
    now apply Hdiff.
  - cbn [snd rows after_generate]. unfold TokenStore.save, fresh_token.
    cbn [drawn after_generate]. now rewrite <- app_assoc.
Qed.

Lemma successive_tokens_differ_witness :
  let this := Fixture.scheme Scenario.enc Fixture.no_request in
  let first := generate this (Some Fixture.user42) None None None Fixture.fresh in
  let second := generate this (Some Fixture.user42) None None None (snd first) in
  exists b1 b2,
    fst first = Return b1 /\ fst second = Return b2
    /\ bearer_token b1 <> bearer_token b2.
Proof.
  intros this first second.
  destruct (successive_tokens_differ this Fixture.user42 None None None Fixture.fresh)
    as (b1 & b2 & H1 & H2 & Hd & _).
  - constructor; try discriminate; try reflexivity.
    + exists "api_token". split; [reflexivity | discriminate].
    + exists Fixture.user42. split; reflexivity.
  - intros s. apply strip_tagged.
  - vm_compute. discriminate.
  - exists b1, b2. split; [exact H1 |]. split; [exact H2 | exact Hd].
Defined.

(** X20. What [generate] returns decodes, along lines 187 and 197 of
    [check], to the token type, the environment, the rendered user id and
    the plaintext token it was built from, provided the provider decrypts
    what it encrypted, the token type and the ciphertext have no underscore
    and the user id and the plaintext token have no colon. *)
Theorem issued_token_decodes (this : ApiScheme) (u : User)
  (tokenType environment : option string) (columns : option JsObject)
  (st st' : State) (b : BearerToken) :
  let userId := get_prop u (primaryKey this) in
  let plain := fresh_token this st in
  generate this (Some u) tokenType environment columns st = (Return b, st') ->
  (forall s, decrypt (Encryption this) (encrypt (Encryption this) s) = Some s) ->
  JsString.includes_char "_" (default "api" tokenType) = false ->
  JsString.includes_char "_" (encrypt (Encryption this) (payload userId plain)) = false ->
  JsString.includes_char ":" (render userId) = false ->
  JsString.includes_char ":" plain = false ->
  decode_wire (Encryption this) (bearer_token b)
  = Some (JsStr (default "api" tokenType),
          JsStr (default "live" environment),
          JsStr (render userId),
          JsStr plain).
Proof.
  intros userId plain H Hdec Htt Hc Hu Hp.
  pose proof (generate_success_accepted _ _ _ _ _ _ _ _ H) as Hacc.
  rewrite (generate_accepted this u _ _ columns st Hacc) in H.
  injection H as <- _.
  cbn [issued bearer_token].
  apply decode_wire_roundtrip; auto.
  apply (accepted_underscore _ _ _ _ Hacc).
Qed.

Lemma issued_token_decodes_witness :
  decode_wire Scenario.enc Scenario.wire
  = Some (JsStr "api", JsStr "live", JsStr "42", JsStr "c0ffee000000400080000").
Proof.
  apply (issued_token_decodes (Fixture.scheme Scenario.enc Fixture.no_request)
           Fixture.user42 None None None Fixture.fresh
           (snd (Scenario.issue None))
           {| bearer_type := "bearer"; bearer_token := Scenario.wire |}).
  - vm_compute. reflexivity.
  - intros s. apply strip_tagged.
  - reflexivity.
  - reflexivity.
  - reflexivity.
  - reflexivity.
Defined.

(** X21. The token [listTokensForUser] shows for a row is the ciphertext
    of the bare plaintext token; with a provider that decrypts what it
    encrypted it is never the ciphertext segment of the wire token
    [generate] returned for that row, which encrypts
    [<userId>:~~:<plainToken>]. *)
Theorem listed_token_is_not_wire_ciphertext (this : ApiScheme) (u : User)
  (environment : option string) (columns : option JsObject) (st : State) :
  let env := default "live" environment in
  let result := generate this (Some u) (Some "api_token") environment columns st in
  Accepted this (Some u) "api_token" env ->
  (forall s, decrypt (Encryption this) (encrypt (Encryption this) s) = Some s) ->
  exists (c : string) (shown : TokenStore.Row) (before : list TokenStore.Row),
    fst result
    = Return {| bearer_type := "bearer"; bearer_token := wire_token "api_token" env c |}
    /\ fst (listTokensForUser this (Some u) (snd result)) = Return (before ++ [shown])
    /\ decrypt (Encryption this) (TokenStore.token shown) = Some (fresh_token this st)
    /\ TokenStore.token shown <> c.
Proof.
  cbn zeta. intros Hacc Hdec.
  rewrite (generate_accepted this u (Some "api_token") environment columns st Hacc).
  rewrite listTokensForUser_user. cbn [fst snd rows after_generate].
  unfold TokenStore.list, TokenStore.save.
  rewrite List.filter_app, List.map_app. cbn [List.filter List.map app].
  cbn [TokenStore.owner TokenStore.type].
  rewrite !bool_decide_eq_true_2 by reflexivity. cbn [andb List.map listed].
  eexists _, _, _. split; [reflexivity |]. split; [reflexivity |].
  cbn [TokenStore.token]. split; [apply Hdec |].
  intros Heq. apply (encrypt_injective _ _ _ Hdec) in Heq.
  apply (f_equal String.length) in Heq.
  unfold payload, DELIMITER in Heq. rewrite !append_length in Heq.
  cbn [String.length TokenStore.token] in Heq. lia.
Qed.

Lemma listed_token_is_not_wire_ciphertext_witness :
  let this := Fixture.scheme Scenario.enc Fixture.no_request in
  exists (shown : TokenStore.Row) (before : list TokenStore.Row),
    fst (listTokensForUser this (Some Fixture.user42)
           (snd (generate this (Some Fixture.user42) (Some "api_token") None None
                   Fixture.fresh)))
    = Return (before ++ [shown])
    /\ decrypt Scenario.enc (TokenStore.token shown) = Some "c0ffee000000400080000".
Proof.
  intros this.
  destruct (listed_token_is_not_wire_ciphertext this Fixture.user42 None None
              Fixture.fresh) as (c & shown & before & _ & Hl & Hd & _).
  - constructor; try discriminate; try reflexivity.
    + exists "api_token". split; [reflexivity | discriminate].
    + exists Fixture.user42. split; reflexivity.
  - intros s. apply strip_tagged.
  - exists shown, before. split; [exact Hl | exact Hd].
Defined.
